(** * The upload page of web/src/pages/mainPage.tsx

    A shallow embedding of the [MainPage] component: its four pieces of React
    state, the object-URL store of the browser, the three event handlers
    ([handleFileUpload], [clearFile], [sendToBackend]) and the effect whose
    cleanup revokes the preview URL.  Handlers are programs of a small
    state-and-exception monad over a [World] that records every observable
    call (state setters, [URL.revokeObjectURL], [URL.createObjectURL],
    [fetch], [console]) in order. *)

From stdpp Require Import base gmap sets list strings pretty.

Open Scope string_scope.
Open Scope list_scope.

(* [set_solver] clears hypotheses that are sometimes already gone. *)
#[local] Set Warnings "-clear-no-such-hyp".

(** ** JavaScript values

    The values a parsed JSON body can hold.  Numbers are restricted to the
    integers, which is all the page ever renders (an HTTP status, a frame
    index).  An object lists its properties, each name once; a lookup takes
    the first entry of a name. *)
Module Js.

#[local] Unset Elimination Schemes.
Inductive value : Type :=
| Null
| Bool (b : bool)
| Num (n : Z)
| Str (s : string)
| Arr (items : list value)
| Obj (fields : list (string * value)).
#[local] Set Elimination Schemes.

(** [if (v)] *)
Definition truthy (v : value) : bool :=
  match v with
  | Null => false
  | Bool b => b
  | Num n => negb (n =? 0)%Z
  | Str s => negb (String.eqb s "")
  | Arr _ => true
  | Obj _ => true
  end.

(** [String(v)], which is also what a template literal applies. *)
Fixpoint toString (v : value) : string :=
  match v with
  | Null => "null"
  | Bool true => "true"
  | Bool false => "false"
  | Num n => pretty n
  | Str s => s
  | Arr items =>
      String.concat ","
        (map (fun e => match e with Null => "" | _ => toString e end) items)
  | Obj _ => "[object Object]"
  end.

(** [Array.prototype.join]: [null] entries render as the empty string. *)
Definition join (sep : string) (items : list value) : string :=
  String.concat sep
    (map (fun e => match e with Null => "" | _ => toString e end) items).

Fixpoint assoc (key : string) (fields : list (string * value)) : option value :=
  match fields with
  | [] => None
  | (k, v) :: rest => if String.eqb k key then Some v else assoc key rest
  end.

(** [v.key] for a truthy [v]; [None] is [undefined].  The page reads only
    [detail], [error], [message] and [frame_index_in_valid_list], none of
    which a string, number, boolean or array carries. *)
Definition get (v : value) (key : string) : option value :=
  match v with
  | Obj fields => assoc key fields
  | _ => None
  end.

End Js.

(** ** Data of the page *)

(** A browser [File]. *)
Record File : Type := mkFile {
  name : string;
  type : string;
  size : N;
  content : list Byte.byte
}.

Inductive StatusType : Type := success | error.

(** [{ type: "success" | "error" | null; message: string }] *)
Record UploadStatus : Type := mkStatus {
  status_type : option StatusType;
  message : string
}.

Definition idle : UploadStatus := mkStatus None "".

(** The four [useState] cells. *)
Record State : Type := mkState {
  file : option File;
  previewUrl : option string;
  isUploading : bool;
  uploadStatus : UploadStatus
}.

Definition initialState : State := mkState None None false idle.

Definition API_BASE_URL : string := "/api".

(** [if (previewUrl)] on a [string | null]. *)
Definition truthy_url (u : option string) : bool :=
  match u with
  | Some s => negb (String.eqb s "")
  | None => false
  end.

(** A part of a [FormData]. *)
Inductive FormValue : Type :=
| FileValue (f : File)
| TextValue (s : string).

Definition FormData : Type := list (string * FormValue).

(** What [catch] can receive: an [Error] object of some class, or any other
    value. *)
Inductive ErrorClass : Type := PlainError | TypeError | SyntaxError.

Inductive Thrown : Type :=
| ErrorObject (cls : ErrorClass) (msg : string)
| NonError (v : Js.value).

(** [error instanceof TypeError] and [error instanceof Error] *)
Definition instanceof_TypeError (e : Thrown) : bool :=
  match e with
  | ErrorObject TypeError _ => true
  | _ => false
  end.

Definition instanceof_Error (e : Thrown) : bool :=
  match e with
  | ErrorObject _ _ => true
  | NonError _ => false
  end.

Definition error_message (e : Thrown) : string :=
  match e with
  | ErrorObject _ m => m
  | NonError _ => ""
  end.

(** A [Response]; [ok] is what the Fetch standard derives from [status]. *)
Record Response : Type := mkResponse {
  status : Z;
  statusText : string
}.

Definition ok (r : Response) : bool :=
  ((200 <=? status r) && (status r <=? 299))%Z.

(** How the promise of [fetch] settles, and how that of [response.json()]
    does. *)
Inductive FetchOutcome : Type :=
| Resolved (response : Response)
| Rejected (e : Thrown).

Inductive JsonOutcome : Type :=
| Parsed (v : Js.value)
| ParseFailed (jsonError : Thrown).

(** ** Observable calls *)

Inductive Effect : Type :=
| SetFile (f : option File)
| SetPreviewUrl (u : option string)
| SetIsUploading (b : bool)
| SetUploadStatus (s : UploadStatus)
| RevokeObjectURL (u : string)
| CreateObjectURL (f : File) (u : string)
| Fetch (endpoint method : string) (body : FormData)
| ReadJson (r : Response)
| ConsoleLog (label : string)
| ConsoleError (label : string).

(** The object-URL store: a counter that names the next blob URL and the set
    of URLs not yet revoked. *)
Record Browser : Type := mkBrowser {
  nextBlob : nat;
  live : gset string
}.

Record World : Type := mkWorld {
  state : State;
  browser : Browser;
  trace : list Effect
}.

Definition blobUrl (n : nat) : string := "blob:" +:+ pretty n.

(** ** The monad of handlers

    A handler runs against the world and either returns or throws. *)

Inductive Outcome (A : Type) : Type :=
| Returned (a : A)
| Threw (e : Thrown).
Arguments Returned {A} a.
Arguments Threw {A} e.

Definition M (A : Type) : Type := World -> Outcome A * World.

Definition ret {A} (a : A) : M A := fun w => (Returned a, w).

Definition bind {A B} (m : M A) (k : A -> M B) : M B :=
  fun w =>
    match m w with
    | (Returned a, w') => k a w'
    | (Threw e, w') => (Threw e, w')
    end.

Definition throw {A} (e : Thrown) : M A := fun w => (Threw e, w).

#[export] Instance M_ret : MRet M := @ret.
#[export] Instance M_bind : MBind M := fun A B k m => bind m k.

(** One observable call: logged, and applied to the state or the store. *)
Definition apply_state (e : Effect) (s : State) : State :=
  match e with
  | SetFile f => mkState f (previewUrl s) (isUploading s) (uploadStatus s)
  | SetPreviewUrl u => mkState (file s) u (isUploading s) (uploadStatus s)
  | SetIsUploading b => mkState (file s) (previewUrl s) b (uploadStatus s)
  | SetUploadStatus st => mkState (file s) (previewUrl s) (isUploading s) st
  | _ => s
  end.

Definition apply_browser (e : Effect) (b : Browser) : Browser :=
  match e with
  | RevokeObjectURL u => mkBrowser (nextBlob b) (live b ∖ {[u]})
  | CreateObjectURL _ u => mkBrowser (S (nextBlob b)) ({[u]} ∪ live b)
  | _ => b
  end.

Definition perform (e : Effect) : M unit :=
  fun w =>
    (Returned tt,
     mkWorld (apply_state e (state w)) (apply_browser e (browser w))
             (trace w ++ [e])).

Definition setFile (f : option File) : M unit := perform (SetFile f).
Definition setPreviewUrl (u : option string) : M unit := perform (SetPreviewUrl u).
Definition setIsUploading (b : bool) : M unit := perform (SetIsUploading b).
Definition setUploadStatus (s : UploadStatus) : M unit := perform (SetUploadStatus s).
Definition revokeObjectURL (u : string) : M unit := perform (RevokeObjectURL u).
Definition consoleLog (label : string) : M unit := perform (ConsoleLog label).
Definition consoleError (label : string) : M unit := perform (ConsoleError label).

(** [URL.createObjectURL]: a URL the store has never handed out. *)
Definition createObjectURL (f : File) : M string :=
  fun w =>
    let u := blobUrl (nextBlob (browser w)) in
    match perform (CreateObjectURL f u) w with
    | (_, w') => (Returned u, w')
    end.

(** [fetch(endpoint, { method, body })]: the request leaves; its outcome
    arrives when the handler is resumed. *)
Definition fetch (endpoint method : string) (body : FormData) : M unit :=
  perform (Fetch endpoint method body).

(** [if (url) URL.revokeObjectURL(url)] *)
Definition revokeIfSet (url : option string) : M unit :=
  match url with
  | Some u => if truthy_url url then revokeObjectURL u else ret tt
  | None => ret tt
  end.

(** ** Handlers

    A handler closes over the state of the render that created it, passed
    here as [r]. *)

Definition handleFileUpload (r : State) (files : list File) : M unit :=
  match files with
  | selectedFile :: _ =>
      setFile (Some selectedFile) ;;
      setUploadStatus idle ;;
      revokeIfSet (previewUrl r) ;;
      url ← createObjectURL selectedFile;
      setPreviewUrl (Some url) ;;
      consoleLog "selectedFile"
  | [] => ret tt
  end.

Definition clearFile (r : State) : M unit :=
  revokeIfSet (previewUrl r) ;;
  setFile None ;;
  setPreviewUrl None ;;
  setUploadStatus idle.

(** The cleanup returned by the effect of a render. *)
Definition effectCleanup (r : State) : M unit :=
  revokeIfSet (previewUrl r).

(** ** [sendToBackend]

    The handler suspends twice, at [await fetch(...)] and at
    [await response.json()].  A [Task] says where an invocation stands, and
    carries the locals its remaining code still reads. *)
Inductive Task : Type :=
| Finished
| AwaitFetch (isVideo : bool)
| AwaitJson (isVideo : bool) (response : Response).

(** The message the [catch (error)] block settles on. *)
Definition catchMessage (e : Thrown) : string :=
  let errorMessage := "Failed to upload file" in
  if instanceof_TypeError e && String.eqb (error_message e) "Failed to fetch"
  then "Network error: Cannot connect to the server. Check if the API is running at "
         +:+ API_BASE_URL
  else if instanceof_Error e then error_message e
  else errorMessage.

(** The [catch (error)] block. *)
Definition catchBlock (e : Thrown) : M unit :=
  let errorMessage := catchMessage e in
  setUploadStatus (mkStatus (Some error) errorMessage) ;;
  consoleError "Upload error:".

(** The [finally] block. *)
Definition finallyBlock : M unit := setIsUploading false.

(** [try { ... } catch { ... } finally { ... }] around one stretch of the
    body: a stretch that throws runs both blocks, one that reaches the end of
    the body runs [finally], one that suspends leaves both pending. *)
Definition guarded (body : M Task) : M Task :=
  fun w =>
    match body w with
    | (Threw e, w') => (catchBlock e ;; finallyBlock ;; mret Finished) w'
    | (Returned Finished, w') => (finallyBlock ;; mret Finished) w'
    | (Returned t, w') => (Returned t, w')
    end.

(** The body of [try] up to [await fetch]. *)
Definition tryStart (file : File) : M Task :=
  let formData : FormData := [] in
  let fileType := type file in
  let isVideo := String.prefix "video/" fileType in
  let isImage := String.prefix "image/" fileType in
  if negb isVideo && negb isImage
  then throw (ErrorObject PlainError "Please upload a valid video or image file")
  else
    let endpoint :=
      if isVideo
      then API_BASE_URL +:+ "/arms/from_video"
      else API_BASE_URL +:+ "/arms/from_image" in
    let formData :=
      if isVideo
      then ((formData ++ [("video", FileValue file)])
              ++ [("fps", TextValue "1")]) ++ [("seconds", TextValue "-1")]
      else formData ++ [("image", FileValue file)] in
    fetch endpoint "POST" formData ;;
    mret (AwaitFetch isVideo).

(** From the settlement of [fetch] to [await response.json()]. *)
Definition afterFetch (isVideo : bool) (o : FetchOutcome) : M Task :=
  match o with
  | Rejected e => throw e
  | Resolved response =>
      perform (ReadJson response) ;;
      mret (AwaitJson isVideo response)
  end.

(** [if (responseData.key) details.push(responseData.key)] *)
Definition pushIfTruthy (responseData : Js.value) (key : string)
    (details : list Js.value) : list Js.value :=
  match Js.get responseData key with
  | Some v => if Js.truthy v then details ++ [v] else details
  | None => details
  end.

(** [if (responseData.frame_index_in_valid_list !== undefined) details.push(...)] *)
Definition pushFrameIndex (responseData : Js.value)
    (details : list Js.value) : list Js.value :=
  match Js.get responseData "frame_index_in_valid_list" with
  | Some v => details ++ [Js.Str ("Frame index: " +:+ Js.toString v)]
  | None => details
  end.

(** The message built under [if (!response.ok)]. *)
Definition serverErrorMessage (response : Response) (responseData : Js.value) : string :=
  let errorMessage := "Server error (" +:+ pretty (status response) +:+ "): " in
  if Js.truthy responseData
  then
    let details : list Js.value := [] in
    let details := pushIfTruthy responseData "detail" details in
    let details := pushIfTruthy responseData "error" details in
    let details := pushIfTruthy responseData "message" details in
    let details := pushFrameIndex responseData details in
    errorMessage
      +:+ (if (0 <? length details)%nat then Js.join " | " details else statusText response)
  else errorMessage +:+ statusText response.

(** From the settlement of [response.json()] to the end of [try]. *)
Definition afterJson (isVideo : bool) (response : Response) (j : JsonOutcome) : M Task :=
  responseData ←
    match j with
    | Parsed v => mret v
    | ParseFailed _ => consoleError "Failed to parse JSON response:" ;; mret Js.Null
    end;
  if negb (ok response)
  then throw (ErrorObject PlainError (serverErrorMessage response responseData))
  else
    setUploadStatus
      (mkStatus (Some success)
         ((if isVideo then "Video" else "Image") +:+ " uploaded successfully!")) ;;
    consoleLog "Response:" ;;
    mret Finished.

Definition sendToBackend (r : State) : M Task :=
  match file r with
  | None =>
      setUploadStatus (mkStatus (Some error) "Please select a file first") ;;
      mret Finished
  | Some f =>
      setIsUploading true ;;
      setUploadStatus idle ;;
      guarded (tryStart f)
  end.

Definition resumeFetch (isVideo : bool) (o : FetchOutcome) : M Task :=
  guarded (afterFetch isVideo o).

Definition resumeJson (isVideo : bool) (response : Response) (j : JsonOutcome) : M Task :=
  guarded (afterJson isVideo response j).

(** One invocation driven to its end: [o] settles the request if one is
    issued, [j] settles the reading of its body if it comes to that. *)
Definition submit (r : State) (o : FetchOutcome) (j : JsonOutcome) : M Task :=
  t ← sendToBackend r;
  match t with
  | AwaitFetch isVideo =>
      t' ← resumeFetch isVideo o;
      match t' with
      | AwaitJson isVideo' response => resumeJson isVideo' response j
      | _ => mret t'
      end
  | _ => mret t
  end.

Definition exec {A} (m : M A) (w : World) : World := snd (m w).
Definition result {A} (m : M A) (w : World) : Outcome A := fst (m w).

(** The calls a handler added to the log of [w]. *)
Definition added {A} (m : M A) (w : World) : list Effect :=
  drop (length (trace w)) (trace (exec m w)).

Definition isFetch (e : Effect) : bool :=
  match e with Fetch _ _ _ => true | _ => false end.

Definition fetches (tr : list Effect) : list Effect := List.filter isFetch tr.

Definition revocations (tr : list Effect) : list string :=
  omap (fun e => match e with RevokeObjectURL u => Some u | _ => None end) tr.

(** How many times [URL.revokeObjectURL(u)] was called. *)
Definition revokeCalls (u : string) (tr : list Effect) : nat :=
  length (List.filter (String.eqb u) (revocations tr)).

Definition contains (sub s : string) : bool :=
  match String.index 0 sub s with Some _ => true | None => false end.

Definition emptyWorld : World := mkWorld initialState (mkBrowser 0 ∅) [].

(** ** The mounted component

    [effectRender] is the render whose effect is installed:
    [useEffect(..., [previewUrl])] runs the cleanup of that render when a
    later render has another [previewUrl], and when the component unmounts.
    [task] is the invocation of [sendToBackend] in flight, if any. *)
Record Page : Type := mkPage {
  world : World;
  effectRender : State;
  task : Task;
  mounted : bool
}.

Definition initialPage : Page := mkPage emptyWorld initialState Finished true.

Inductive Event : Type :=
| Select (files : list File)
| Clear
| Send
| FetchSettled (o : FetchOutcome)
| JsonSettled (j : JsonOutcome)
| Unmount.

(** The commit after a handler ran. *)
Definition render (p : Page) : Page :=
  let now := state (world p) in
  if decide (previewUrl (effectRender p) = previewUrl now)
  then p
  else
    mkPage (exec (effectCleanup (effectRender p)) (world p))
           now (task p) (mounted p).

(** [{file && previewUrl && (...)}]: the clear and send buttons exist. *)
Definition previewShown (s : State) : bool :=
  match file s with
  | Some _ => truthy_url (previewUrl s)
  | None => false
  end.

(** One event on a mounted page; [None] when the page offers no such event
    (the button is absent or disabled, or no promise is pending). *)
Definition dispatch (ev : Event) (p : Page) : option Page :=
  if negb (mounted p) then None
  else
    let s := state (world p) in
    match ev with
    | Select files =>
        Some (render (mkPage (exec (handleFileUpload s files) (world p))
                             (effectRender p) (task p) true))
    | Clear =>
        if previewShown s
        then Some (render (mkPage (exec (clearFile s) (world p))
                                  (effectRender p) (task p) true))
        else None
    | Send =>
        if previewShown s && negb (isUploading s)
        then
          match sendToBackend s (world p) with
          | (Returned t, w') => Some (render (mkPage w' (effectRender p) t true))
          | (Threw _, _) => None
          end
        else None
    | FetchSettled o =>
        match task p with
        | AwaitFetch isVideo =>
            match resumeFetch isVideo o (world p) with
            | (Returned t, w') => Some (render (mkPage w' (effectRender p) t true))
            | (Threw _, _) => None
            end
        | _ => None
        end
    | JsonSettled j =>
        match task p with
        | AwaitJson isVideo response =>
            match resumeJson isVideo response j (world p) with
            | (Returned t, w') => Some (render (mkPage w' (effectRender p) t true))
            | (Threw _, _) => None
            end
        | _ => None
        end
    | Unmount =>
        Some (mkPage (exec (effectCleanup (effectRender p)) (world p))
                     (effectRender p) (task p) false)
    end.

Fixpoint run (evs : list Event) (p : Page) : option Page :=
  match evs with
  | [] => Some p
  | ev :: rest =>
      match dispatch ev p with
      | Some p' => run rest p'
      | None => None
      end
  end.

(** The store replayed over a log, one call at a time. *)
Definition replay (tr : list Effect) : Browser :=
  foldl (fun b e => apply_browser e b) (mkBrowser 0 ∅) tr.

(** ** Vocabulary of the statements *)

(** [w] after the calls [es], in order. *)
Definition extend (w : World) (es : list Effect) : World :=
  mkWorld (foldl (fun s e => apply_state e s) (state w) es)
          (foldl (fun b e => apply_browser e b) (browser w) es)
          (trace w ++ es).

(** Calls that touch neither [file], [previewUrl] nor the object-URL store. *)
Definition keepsSelection (e : Effect) : bool :=
  match e with
  | SetFile _ | SetPreviewUrl _ | RevokeObjectURL _ | CreateObjectURL _ _ => false
  | _ => true
  end.

Definition isSetIsUploading (e : Effect) : bool :=
  match e with SetIsUploading _ => true | _ => false end.

(** The calls [if (url) URL.revokeObjectURL(url)] makes. *)
Definition revokeLog (url : option string) : list Effect :=
  match url with
  | Some u => if truthy_url url then [RevokeObjectURL u] else []
  | None => []
  end.

(** The request [sendToBackend] builds for a file of a supported type. *)
Definition videoRequest (f : File) : Effect :=
  Fetch "/api/arms/from_video" "POST"
    [("video", FileValue f); ("fps", TextValue "1"); ("seconds", TextValue "-1")].

Definition imageRequest (f : File) : Effect :=
  Fetch "/api/arms/from_image" "POST" [("image", FileValue f)].




(** The body [sendToBackend] works with after [response.json()] settled. *)
Definition bodyOf (j : JsonOutcome) : Js.value :=
  match j with
  | Parsed v => v
  | ParseFailed _ => Js.Null
  end.

(** What the inner [catch (jsonError)] logs. *)
Definition parseLog (j : JsonOutcome) : list Effect :=
  match j with
  | Parsed _ => []
  | ParseFailed _ => [ConsoleError "Failed to parse JSON response:"]
  end.

Definition isVideoFile (f : File) : bool := String.prefix "video/" (type f).
Definition isImageFile (f : File) : bool := String.prefix "image/" (type f).

Definition requestFor (f : File) : Effect :=
  if isVideoFile f then videoRequest f else imageRequest f.

Definition errorStatus (msg : string) : UploadStatus := mkStatus (Some error) msg.
Definition successStatus (msg : string) : UploadStatus := mkStatus (Some success) msg.

(** The status a handler leaves behind. *)
Definition statusAfter {A} (m : M A) (w : World) : UploadStatus :=
  uploadStatus (state (exec m w)).

(** A page state holding [f] with its preview [u]. *)
Definition holding (f : File) (u : option string) : State :=
  mkState (Some f) u false idle.

Definition selectOne (sel : File * list File) : Event :=
  Select (fst sel :: snd sel).

(** At most one object URL is live in [b] and after each of the calls [es]. *)
Fixpoint boundedAlong (b : Browser) (es : list Effect) : Prop :=
  (base.size (live b) ≤ 1)%nat
  /\ match es with
     | [] => True
     | e :: rest => boundedAlong (apply_browser e b) rest
     end.

(** The object URLs live after the calls [tr], from an empty store. *)
Definition liveAfter (tr : list Effect) : gset string := live (replay tr).

(** The calls [handleFileUpload] makes for [f] while [old] is previewed and
    [n] object URLs have been handed out, and those of the whole selection:
    the handler, then the cleanup of the effect of the render before. *)
Definition handlerLog (old : option string) (f : File) (n : nat) : list Effect :=
  [SetFile (Some f); SetUploadStatus idle]
  ++ revokeLog old
  ++ [CreateObjectURL f (blobUrl n); SetPreviewUrl (Some (blobUrl n));
      ConsoleLog "selectedFile"].

Definition selectLog (old : option string) (f : File) (n : nat) : list Effect :=
  handlerLog old f n ++ revokeLog old.

(** The calls of a click on the clear button while [old] is previewed: those
    of [clearFile], then the cleanup of the effect of the render before. *)
Definition clearLog (old : option string) : list Effect :=
  (revokeLog old ++ [SetFile None; SetPreviewUrl None; SetUploadStatus idle])
  ++ revokeLog old.

(** The page after [n] selections in a row: [n] object URLs were handed out,
    the last one is previewed, and each earlier one was revoked twice. *)
Definition afterSelections (n : nat) (p : Page) : Prop :=
  mounted p = true
  /\ nextBlob (browser (world p)) = n
  /\ previewUrl (state (world p))
     = match n with
       | O => None
       | S m => Some (blobUrl m)
       end
  /\ forall k, revokeCalls (blobUrl k) (trace (world p))
               = if (S k <? n)%nat then 2%nat else 0%nat.

(** What holds of every page the events can produce. *)
Record PageInv (p : Page) : Prop := mkPageInv {
  inv_replay : browser (world p) = replay (trace (world p));
  inv_effect :
    mounted p = true ->
    previewUrl (effectRender p) = previewUrl (state (world p));
  inv_preview :
    match previewUrl (state (world p)) with
    | None => live (browser (world p)) = ∅
    | Some u =>
        (exists k, u = blobUrl k /\ (k < nextBlob (browser (world p)))%nat)
        /\ live (browser (world p)) ⊆ {[u]}
        /\ (mounted p = true -> live (browser (world p)) = {[u]})
    end;
  inv_fresh :
    forall k, blobUrl k ∈ live (browser (world p)) -> (k < nextBlob (browser (world p)))%nat;
  inv_task :
    isUploading (state (world p)) = true <-> task p <> Finished;
  inv_bounded : boundedAlong (mkBrowser 0 ∅) (trace (world p))
}.

(** ** What the page renders

    The part of the JSX that depends on the state: the preview panel under
    [{file && previewUrl && (...)}] and the alert under
    [{uploadStatus.type && (...)}]. *)

(** [<video src=... controls>] or [<img src=... alt="Preview">]. *)
Inductive Media : Type :=
| VideoElement (src : string)
| ImgElement (src alt : string).

Definition mediaSrc (m : Media) : string :=
  match m with
  | VideoElement src => src
  | ImgElement src _ => src
  end.

(** [(file.size / 1024 / 1024).toFixed(2)].  Dividing an integer below 2^53
    by 1024 twice is exact on doubles, and [toFixed(2)] takes the integer [n]
    with [n / 100] nearest to that quotient, the larger one on a tie:
    [hundredths] is this [n], and [toFixed2] writes it with the point before
    its last two digits. *)
Definition hundredths (bytes : N) : N := ((200 * bytes + 2 ^ 20) / 2 ^ 21)%N.

Definition toFixed2 (n : N) : string :=
  pretty (n / 100)%N +:+ "." +:+ pretty (n mod 100 / 10)%N +:+ pretty (n mod 10)%N.

Definition megabytes (bytes : N) : string := toFixed2 (hundredths bytes).

Record PreviewPanel : Type := mkPanel {
  media : Media;
  fileLine : string;
  sizeLine : string;
  typeLine : string;
  sendDisabled : bool;
  sendSpinner : bool;
  sendLabel : string
}.

Inductive AlertIcon : Type := AlertCircle | CheckCircle.

Record AlertBox : Type := mkAlert {
  variant : string;
  className : string;
  icon : AlertIcon;
  title : string;
  description : string
}.

Record View : Type := mkView {
  panel : option PreviewPanel;
  alert : option AlertBox
}.

Definition renderPanel (s : State) : option PreviewPanel :=
  match file s, previewUrl s with
  | Some f, Some u =>
      if truthy_url (Some u)
      then
        let isVideo := String.prefix "video/" (type f) in
        Some (mkPanel
                (if isVideo then VideoElement u else ImgElement u "Preview")
                (name f)
                (megabytes (size f))
                (if isVideo then "Video" else "Image")
                (isUploading s)
                (isUploading s)
                (if isUploading s then "Uploading..." else "Send to API"))
      else None
  | _, _ => None
  end.

Definition renderAlert (s : State) : option AlertBox :=
  match status_type (uploadStatus s) with
  | Some t =>
      Some (mkAlert
              (match t with error => "destructive" | success => "default" end)
              (match t with success => "border-green-500 bg-green-50" | error => "" end)
              (match t with error => AlertCircle | success => CheckCircle end)
              (match t with error => "Error" | success => "Success" end)
              (message (uploadStatus s)))
  | None => None
  end.

Definition view (s : State) : View := mkView (renderPanel s) (renderAlert s).

(** [file] and [previewUrl] are set together. *)
Definition paired (s : State) : Prop := file s = None <-> previewUrl s = None.

(** A request as [sendToBackend] builds them: for a file whose type has the
    prefix of the endpoint. *)
Definition knownRequest (e : Effect) : Prop :=
  match e with
  | Fetch _ _ _ =>
      exists f,
        (isVideoFile f = true /\ e = videoRequest f)
        \/ (isImageFile f = true /\ e = imageRequest f)
  | _ => True
  end.

(** Sample files. *)
Definition png : File := mkFile "arm.png" "image/png" 4 [Byte.x89; Byte.x50].
Definition mp4 : File := mkFile "arm.mp4" "video/mp4" 9 [Byte.x00].
Definition pdf : File := mkFile "arm.pdf" "application/pdf" 7 [].

(** * Proofs *)

Ltac unfold_handlers :=
  unfold submit, sendToBackend, resumeFetch, resumeJson, guarded, tryStart,
    afterFetch, afterJson, catchBlock, finallyBlock, handleFileUpload, clearFile,
    effectCleanup, revokeIfSet, createObjectURL, fetch,
    setFile, setPreviewUrl, setIsUploading, setUploadStatus, revokeObjectURL,
    consoleLog, consoleError, throw, mbind, M_bind, bind, mret, M_ret, ret,
    perform in *.

Ltac same_world :=
  unfold extend; simpl; rewrite <- ?app_assoc; simpl; reflexivity.

(** ** Worlds and logs *)

Lemma extend_nil w : extend w [] = w.
Proof. destruct w. unfold extend. simpl. by rewrite app_nil_r. Qed.

Lemma extend_app w es es' : extend (extend w es) es' = extend w (es ++ es').
Proof. unfold extend. simpl. by rewrite !foldl_app, app_assoc. Qed.

Lemma perform_extend e w : perform e w = (Returned tt, extend w [e]).
Proof. reflexivity. Qed.

Lemma added_extend {A} (m : M A) w es :
  exec m w = extend w es -> added m w = es.
Proof. intros H. unfold added. rewrite H. simpl. by rewrite drop_app_length. Qed.

Lemma exec_eq {A} (m : M A) w x w' : m w = (x, w') -> exec m w = w'.
Proof. unfold exec. by intros ->. Qed.

Lemma result_eq {A} (m : M A) w x w' : m w = (x, w') -> result m w = x.
Proof. unfold result. by intros ->. Qed.

Lemma extend_keeps w es :
  forallb keepsSelection es = true ->
  file (state (extend w es)) = file (state w)
  /\ previewUrl (state (extend w es)) = previewUrl (state w)
  /\ browser (extend w es) = browser w.
Proof.
  revert w. induction es as [|e es IH]; intros w H.
  - by rewrite extend_nil.
  - simpl in H. apply andb_prop in H as [He Hes].
    change (e :: es) with ([e] ++ es). rewrite <- extend_app.
    destruct (IH (extend w [e]) Hes) as (-> & -> & ->).
    by destruct e.
Qed.

Lemma extend_isUploading w es :
  forallb (fun e => negb (isSetIsUploading e)) es = true ->
  isUploading (state (extend w es)) = isUploading (state w).
Proof.
  revert w. induction es as [|e es IH]; intros w H.
  - by rewrite extend_nil.
  - simpl in H. apply andb_prop in H as [He Hes].
    change (e :: es) with ([e] ++ es). rewrite <- extend_app.
    rewrite (IH (extend w [e]) Hes). by destruct e.
Qed.

(** ** The stretches of [sendToBackend] *)

Lemma video_not_image f : isVideoFile f = true -> isImageFile f = false.
Proof.
  unfold isVideoFile, isImageFile. destruct (type f) as [|a t]; [done|].
  simpl. repeat case_match; congruence.
Qed.

Lemma video_not_image_rev f : isImageFile f = true -> isVideoFile f = false.
Proof.
  intros Hi. destruct (isVideoFile f) eqn:Hv; [|done].
  apply video_not_image in Hv. congruence.
Qed.

Lemma sendToBackend_no_file r w :
  file r = None ->
  sendToBackend r w
  = (Returned Finished, extend w [SetUploadStatus (errorStatus "Please select a file first")]).
Proof. intros H. unfold sendToBackend. by rewrite H. Qed.

Lemma sendToBackend_unsupported r f w :
  file r = Some f -> isVideoFile f = false -> isImageFile f = false ->
  sendToBackend r w
  = (Returned Finished,
     extend w [SetIsUploading true; SetUploadStatus idle;
               SetUploadStatus (errorStatus "Please upload a valid video or image file");
               ConsoleError "Upload error:"; SetIsUploading false]).
Proof.
  unfold isVideoFile, isImageFile. intros H Hv Hi.
  unfold_handlers. rewrite H. simpl. rewrite Hv, Hi. simpl. same_world.
Qed.

Lemma sendToBackend_supported r f w :
  file r = Some f -> isVideoFile f || isImageFile f = true ->
  sendToBackend r w
  = (Returned (AwaitFetch (isVideoFile f)),
     extend w [SetIsUploading true; SetUploadStatus idle; requestFor f]).
Proof.
  unfold requestFor, isVideoFile, isImageFile. intros H Hs.
  unfold_handlers. rewrite H. simpl.
  destruct (String.prefix "video/" (type f)); simpl in *.
  - same_world.
  - rewrite Hs. simpl. same_world.
Qed.

Lemma resumeFetch_rejected isVideo e w :
  resumeFetch isVideo (Rejected e) w
  = (Returned Finished,
     extend w [SetUploadStatus (errorStatus (catchMessage e));
               ConsoleError "Upload error:"; SetIsUploading false]).
Proof. unfold_handlers. simpl. same_world. Qed.

Lemma resumeFetch_resolved isVideo response w :
  resumeFetch isVideo (Resolved response) w
  = (Returned (AwaitJson isVideo response), extend w [ReadJson response]).
Proof. unfold_handlers. simpl. same_world. Qed.

Lemma resumeJson_failure isVideo response j w :
  ok response = false ->
  resumeJson isVideo response j w
  = (Returned Finished,
     extend w (parseLog j
               ++ [SetUploadStatus (errorStatus (serverErrorMessage response (bodyOf j)));
                   ConsoleError "Upload error:"; SetIsUploading false])).
Proof.
  intros Hok. unfold_handlers. destruct j; simpl; rewrite Hok; simpl; same_world.
Qed.

Lemma resumeJson_success isVideo response j w :
  ok response = true ->
  resumeJson isVideo response j w
  = (Returned Finished,
     extend w (parseLog j
               ++ [SetUploadStatus
                     (successStatus ((if isVideo then "Video" else "Image")
                                       +:+ " uploaded successfully!"));
                   ConsoleLog "Response:"; SetIsUploading false])).
Proof.
  intros Hok. unfold_handlers. destruct j; simpl; rewrite Hok; simpl; same_world.
Qed.

(** ** One invocation from start to end *)

Ltac run_submit :=
  unfold submit, mbind, M_bind, bind, mret, M_ret, ret.

Lemma submit_no_file r o j w :
  file r = None ->
  submit r o j w
  = (Returned Finished, extend w [SetUploadStatus (errorStatus "Please select a file first")]).
Proof. intros H. run_submit. by rewrite (sendToBackend_no_file r w H). Qed.

Lemma submit_unsupported r f o j w :
  file r = Some f -> isVideoFile f = false -> isImageFile f = false ->
  submit r o j w
  = (Returned Finished,
     extend w [SetIsUploading true; SetUploadStatus idle;
               SetUploadStatus (errorStatus "Please upload a valid video or image file");
               ConsoleError "Upload error:"; SetIsUploading false]).
Proof.
  intros H Hv Hi. run_submit. by rewrite (sendToBackend_unsupported r f w H Hv Hi).
Qed.

Lemma submit_rejected r f e j w :
  file r = Some f -> isVideoFile f || isImageFile f = true ->
  submit r (Rejected e) j w
  = (Returned Finished,
     extend w [SetIsUploading true; SetUploadStatus idle; requestFor f;
               SetUploadStatus (errorStatus (catchMessage e));
               ConsoleError "Upload error:"; SetIsUploading false]).
Proof.
  intros H Hs. run_submit. rewrite (sendToBackend_supported r f w H Hs).
  rewrite resumeFetch_rejected. by rewrite extend_app.
Qed.

Lemma submit_failure r f response j w :
  file r = Some f -> isVideoFile f || isImageFile f = true ->
  ok response = false ->
  submit r (Resolved response) j w
  = (Returned Finished,
     extend w ([SetIsUploading true; SetUploadStatus idle; requestFor f;
                ReadJson response]
               ++ parseLog j
               ++ [SetUploadStatus (errorStatus (serverErrorMessage response (bodyOf j)));
                   ConsoleError "Upload error:"; SetIsUploading false])).
Proof.
  intros H Hs Hok. run_submit. rewrite (sendToBackend_supported r f w H Hs).
  rewrite resumeFetch_resolved, (resumeJson_failure _ _ _ _ Hok).
  by rewrite !extend_app.
Qed.

Lemma submit_success r f response j w :
  file r = Some f -> isVideoFile f || isImageFile f = true ->
  ok response = true ->
  submit r (Resolved response) j w
  = (Returned Finished,
     extend w ([SetIsUploading true; SetUploadStatus idle; requestFor f;
                ReadJson response]
               ++ parseLog j
               ++ [SetUploadStatus
                     (successStatus ((if isVideoFile f then "Video" else "Image")
                                       +:+ " uploaded successfully!"));
                   ConsoleLog "Response:"; SetIsUploading false])).
Proof.
  intros H Hs Hok. run_submit. rewrite (sendToBackend_supported r f w H Hs).
  rewrite resumeFetch_resolved, (resumeJson_success _ _ _ _ Hok).
  by rewrite !extend_app.
Qed.

Ltac find_mid Hreq :=
  let close := (split; [reflexivity | simpl; by rewrite Hreq]) in
  solve [ eexists [_; _; _; _]; close
        | eexists [_; _; _; _; _]; close
        | eexists [_; _; _; _; _; _]; close
        | eexists [_; _; _; _; _; _; _]; close ].

(** Every invocation ends, and what it did is a list of calls that starts by
    raising [isUploading] and ends by lowering it when a file was selected. *)
Lemma submit_shape r o j w :
  exists es,
    submit r o j w = (Returned Finished, extend w es)
    /\ forallb keepsSelection es = true
    /\ match file r with
       | None => forallb (fun e => negb (isSetIsUploading e)) es = true
       | Some _ =>
           exists mid,
             es = SetIsUploading true :: mid ++ [SetIsUploading false]
             /\ forallb (fun e => negb (isSetIsUploading e)) mid = true
       end.
Proof.
  destruct (file r) as [f|] eqn:Hf.
  - destruct (isVideoFile f || isImageFile f) eqn:Hs.
    + assert (Hreq : isSetIsUploading (requestFor f) = false
                     /\ keepsSelection (requestFor f) = true)
        by (unfold requestFor; by destruct (isVideoFile f)).
      destruct Hreq as [Hreq Hreq'].
      destruct o as [response|e].
      * destruct (ok response) eqn:Hok.
        -- eexists. split; [by apply (submit_success r f)|].
           split; [destruct j; simpl; by rewrite Hreq'|].
           destruct j; simpl; find_mid Hreq.
        -- eexists. split; [by apply (submit_failure r f)|].
           split; [destruct j; simpl; by rewrite Hreq'|].
           destruct j; simpl; find_mid Hreq.
      * eexists. split; [by apply (submit_rejected r f)|].
        split; [simpl; by rewrite Hreq'|]. find_mid Hreq.
    + apply orb_false_iff in Hs as [Hv Hi].
      eexists. split; [by apply (submit_unsupported r f)|].
      split; [done|]. by eexists [_; _; _].
  - eexists. split; [by apply submit_no_file|]. done.
Qed.

Lemma ok_range response :
  ok response = true <-> (200 <= status response <= 299)%Z.
Proof. unfold ok. rewrite andb_true_iff, !Z.leb_le. tauto. Qed.


Lemma requestFor_video f : isVideoFile f = true -> requestFor f = videoRequest f.
Proof. unfold requestFor. by intros ->. Qed.

Lemma requestFor_image f : isImageFile f = true -> requestFor f = imageRequest f.
Proof.
  intros Hi. unfold requestFor. destruct (isVideoFile f) eqn:Hv; [|done].
  apply video_not_image in Hv. congruence.
Qed.

(** A supported file makes exactly one request, however it settles. *)
Lemma submit_fetches r f o j w :
  file r = Some f -> isVideoFile f || isImageFile f = true ->
  fetches (added (submit r o j) w) = [requestFor f].
Proof.
  intros Hf Hs.
  assert (Hreq : isFetch (requestFor f) = true)
    by (unfold requestFor; by destruct (isVideoFile f)).
  destruct o as [response|e].
  - destruct (ok response) eqn:Hok.
    + rewrite (added_extend _ _ _ (exec_eq _ _ _ _ (submit_success r f response j w Hf Hs Hok))).
      destruct j; simpl; by rewrite Hreq.
    + rewrite (added_extend _ _ _ (exec_eq _ _ _ _ (submit_failure r f response j w Hf Hs Hok))).
      destruct j; simpl; by rewrite Hreq.
  - rewrite (added_extend _ _ _ (exec_eq _ _ _ _ (submit_rejected r f e j w Hf Hs))).
    simpl; by rewrite Hreq.
Qed.

Lemma statusAfter_tail {A} (m : M A) w x es s c :
  (forall st, apply_state c st = st) ->
  m w = (x, extend w (es ++ [SetUploadStatus s; c; SetIsUploading false])) ->
  statusAfter m w = s.
Proof.
  intros Hc H. unfold statusAfter. rewrite (exec_eq _ _ _ _ H).
  unfold extend. simpl. rewrite foldl_app. simpl. by rewrite Hc.
Qed.

(** ** The message of a server error *)




(** * The claims about [sendToBackend] *)

(** C3 as stated fails: with no file selected the status does not read
    "no file selected". *)
Lemma no_file_message_differs :
  file initialState = None
  /\ statusAfter (sendToBackend initialState) emptyWorld
     <> errorStatus "no file selected".
Proof. split; [reflexivity|]. vm_compute. discriminate. Qed.

(** C3, amended: invoked with no file selected, [sendToBackend] ends at once
    with the error status "Please select a file first"; setting that status
    is its only call, so no request is made. *)
Theorem sendToBackend_without_file r w :
  file r = None ->
  result (sendToBackend r) w = Returned Finished
  /\ statusAfter (sendToBackend r) w = errorStatus "Please select a file first"
  /\ added (sendToBackend r) w
     = [SetUploadStatus (errorStatus "Please select a file first")]
  /\ fetches (added (sendToBackend r) w) = [].
Proof.
  intros H. pose proof (sendToBackend_no_file r w H) as E.
  assert (Ha := added_extend _ _ _ (exec_eq _ _ _ _ E)).
  rewrite Ha. split; [by apply (result_eq _ _ _ _ E)|].
  split; [|done]. unfold statusAfter. by rewrite (exec_eq _ _ _ _ E).
Qed.

Lemma sendToBackend_without_file_witness :
  file initialState = None
  /\ statusAfter (sendToBackend initialState) emptyWorld
     = errorStatus "Please select a file first".
Proof.
  split; [reflexivity|].
  apply (sendToBackend_without_file initialState emptyWorld). reflexivity.
Defined.

(** C7 as stated fails: for a PDF the status does not read
    "unsupported file type". *)
Lemma unsupported_message_differs :
  String.prefix "video/" (type pdf) = false
  /\ String.prefix "image/" (type pdf) = false
  /\ statusAfter (sendToBackend (holding pdf None)) emptyWorld
     <> errorStatus "unsupported file type".
Proof. split; [reflexivity|]. split; [reflexivity|]. vm_compute. discriminate. Qed.

(** C7, amended: for a file whose type starts with neither "image/" nor
    "video/", [sendToBackend] ends without suspending, with the error status
    "Please upload a valid video or image file", and makes no request. *)
Theorem sendToBackend_unsupported_type r f w :
  file r = Some f ->
  String.prefix "video/" (type f) = false ->
  String.prefix "image/" (type f) = false ->
  result (sendToBackend r) w = Returned Finished
  /\ statusAfter (sendToBackend r) w
     = errorStatus "Please upload a valid video or image file"
  /\ fetches (added (sendToBackend r) w) = []
  /\ isUploading (state (exec (sendToBackend r) w)) = false.
Proof.
  intros H Hv Hi. pose proof (sendToBackend_unsupported r f w H Hv Hi) as E.
  rewrite (added_extend _ _ _ (exec_eq _ _ _ _ E)).
  split; [by apply (result_eq _ _ _ _ E)|].
  unfold statusAfter. by rewrite (exec_eq _ _ _ _ E).
Qed.

Lemma sendToBackend_unsupported_type_witness :
  statusAfter (sendToBackend (holding pdf None)) emptyWorld
  = errorStatus "Please upload a valid video or image file"
  /\ fetches (added (sendToBackend (holding pdf None)) emptyWorld) = [].
Proof.
  destruct (sendToBackend_unsupported_type (holding pdf None) pdf emptyWorld)
    as (_ & Hs & Hn & _); [reflexivity | reflexivity | reflexivity |].
  split; [exact Hs | exact Hn].
Defined.

(** C4: a selected file whose type starts with "video/" makes exactly one
    request, a POST to /api/arms/from_video with the parts video (the file),
    fps = "1" and seconds = "-1"; one whose type starts with "image/" makes
    exactly one, a POST to /api/arms/from_image with the part image (the
    file); this whatever the outcome of the request. *)
Theorem submit_request r f o j w :
  file r = Some f ->
  (String.prefix "video/" (type f) = true ->
   fetches (added (submit r o j) w)
   = [Fetch "/api/arms/from_video" "POST"
        [("video", FileValue f); ("fps", TextValue "1"); ("seconds", TextValue "-1")]])
  /\ (String.prefix "image/" (type f) = true ->
      fetches (added (submit r o j) w)
      = [Fetch "/api/arms/from_image" "POST" [("image", FileValue f)]]).
Proof.
  intros Hf. split; intros Hp.
  - rewrite (submit_fetches r f o j w Hf).
    + by rewrite requestFor_video.
    + unfold isVideoFile. by rewrite Hp.
  - rewrite (submit_fetches r f o j w Hf).
    + by rewrite requestFor_image.
    + unfold isImageFile. rewrite Hp. apply orb_true_r.
Qed.

Lemma submit_request_witness :
  fetches (added (submit (holding mp4 None) (Rejected (NonError Js.Null)) (Parsed Js.Null))
             emptyWorld)
  = [Fetch "/api/arms/from_video" "POST"
       [("video", FileValue mp4); ("fps", TextValue "1"); ("seconds", TextValue "-1")]].
Proof.
  apply (submit_request (holding mp4 None) mp4); reflexivity.
Defined.




(** What [catch] makes of each kind of thrown value. *)
Lemma catchMessage_cases e :
  (e = ErrorObject TypeError "Failed to fetch" ->
   catchMessage e
   = "Network error: Cannot connect to the server. Check if the API is running at /api")
  /\ (forall cls m, e = ErrorObject cls m ->
      cls <> TypeError \/ m <> "Failed to fetch" -> catchMessage e = m)
  /\ (forall v, e = NonError v -> catchMessage e = "Failed to upload file").
Proof.
  split; [by intros ->|]. split; [|by intros v ->].
  intros cls m -> Hne. unfold catchMessage. simpl.
  destruct (String.eqb m "Failed to fetch") eqn:Hm.
  - apply String.eqb_eq in Hm. destruct cls; simpl; try done.
    destruct Hne; done.
  - by rewrite andb_false_r.
Qed.

(** C6 as stated fails: a request rejected with a TypeError whose message is
    not "Failed to fetch" yields that message, which does not name /api. *)
Lemma transport_failure_unnamed :
  let st := statusAfter (submit (holding mp4 None)
                           (Rejected (ErrorObject TypeError "Load failed"))
                           (Parsed Js.Null)) emptyWorld in
  st = errorStatus "Load failed"
  /\ contains API_BASE_URL (message st) = false.
Proof. by vm_compute. Qed.

(** C6, amended: when the request is rejected the status is an error; its
    message names a connection failure and /api when the thrown value is a
    TypeError with the message "Failed to fetch", is the thrown Error's own
    message for every other Error, and is "Failed to upload file" for a value
    that is no Error.  No invocation, whatever its outcome, throws. *)
Theorem rejected_request_status r f e j w :
  file r = Some f ->
  isVideoFile f || isImageFile f = true ->
  let st := statusAfter (submit r (Rejected e) j) w in
  status_type st = Some error
  /\ (e = ErrorObject TypeError "Failed to fetch" ->
      message st
      = "Network error: Cannot connect to the server. Check if the API is running at /api"
      /\ contains API_BASE_URL (message st) = true)
  /\ (forall cls m, e = ErrorObject cls m ->
      cls <> TypeError \/ m <> "Failed to fetch" -> message st = m)
  /\ (forall v, e = NonError v -> message st = "Failed to upload file")
  /\ (forall r' o' j' w', result (submit r' o' j') w' = Returned Finished).
Proof.
  intros Hf Hs st.
  pose proof (submit_rejected r f e j w Hf Hs) as E.
  assert (Hst : st = errorStatus (catchMessage e)).
  { subst st.
    by apply (statusAfter_tail _ _ _ [_; _; _] _ (ConsoleError "Upload error:")
                (fun _ => eq_refl) E). }
  destruct (catchMessage_cases e) as (H1 & H2 & H3).
  rewrite Hst. simpl. split; [done|].
  split; [intros He; rewrite (H1 He); by vm_compute|].
  split; [exact H2|]. split; [exact H3|].
  intros r' o' j' w'. destruct (submit_shape r' o' j' w') as (es & E' & _).
  by apply (result_eq _ _ _ _ E').
Qed.

Lemma rejected_request_status_witness :
  message (statusAfter (submit (holding mp4 None)
                          (Rejected (ErrorObject TypeError "Failed to fetch"))
                          (Parsed Js.Null)) emptyWorld)
  = "Network error: Cannot connect to the server. Check if the API is running at /api".
Proof.
  destruct (rejected_request_status (holding mp4 None) mp4
              (ErrorObject TypeError "Failed to fetch") (Parsed Js.Null) emptyWorld)
    as (_ & H & _); [reflexivity | reflexivity |].
  destruct H as [H _]; [reflexivity | exact H].
Defined.

(** C8: for a response whose status is in 200..299 the invocation ends with
    the success status "Video uploaded successfully!" for a video file and
    "Image uploaded successfully!" for an image file, also when the body did
    not parse, which is only logged. *)
Theorem success_status r f response j w :
  file r = Some f ->
  isVideoFile f || isImageFile f = true ->
  (200 <= status response <= 299)%Z ->
  let st := statusAfter (submit r (Resolved response) j) w in
  result (submit r (Resolved response) j) w = Returned Finished
  /\ (String.prefix "video/" (type f) = true ->
      st = successStatus "Video uploaded successfully!")
  /\ (String.prefix "image/" (type f) = true ->
      st = successStatus "Image uploaded successfully!")
  /\ (forall jsonError, j = ParseFailed jsonError ->
      ConsoleError "Failed to parse JSON response:"
        ∈ added (submit r (Resolved response) j) w).
Proof.
  intros Hf Hs Hok st. apply ok_range in Hok.
  pose proof (submit_success r f response j w Hf Hs Hok) as E.
  split; [by apply (result_eq _ _ _ _ E)|].
  assert (Hst : st = successStatus ((if isVideoFile f then "Video" else "Image")
                                      +:+ " uploaded successfully!")).
  { subst st. rewrite app_assoc in E.
    by apply (statusAfter_tail _ _ _ _ _ (ConsoleLog "Response:") (fun _ => eq_refl) E). }
  split; [|split].
  - intros Hv. rewrite Hst. unfold isVideoFile. by rewrite Hv.
  - intros Hi. rewrite Hst. by rewrite (video_not_image_rev f Hi).
  - intros jsonError ->.
    rewrite (added_extend _ _ _ (exec_eq _ _ _ _ E)). simpl. set_solver.
Qed.

Lemma success_status_witness :
  statusAfter (submit (holding mp4 None) (Resolved (mkResponse 200 "OK"))
                 (ParseFailed (ErrorObject SyntaxError "Unexpected token")))
    emptyWorld
  = successStatus "Video uploaded successfully!".
Proof.
  destruct (success_status (holding mp4 None) mp4 (mkResponse 200 "OK")
              (ParseFailed (ErrorObject SyntaxError "Unexpected token")) emptyWorld)
    as (_ & H & _); [reflexivity | reflexivity | simpl; lia |].
  apply H. reflexivity.
Defined.

(** ** What each stretch leaves untouched *)

Lemma sendToBackend_shape r w :
  exists t es,
    sendToBackend r w = (Returned t, extend w es)
    /\ forallb keepsSelection es = true
    /\ match file r with
       | None =>
           t = Finished
           /\ isUploading (state (extend w es)) = isUploading (state w)
       | Some _ =>
           (t = Finished /\ isUploading (state (extend w es)) = false)
           \/ (exists v, t = AwaitFetch v /\ isUploading (state (extend w es)) = true)
       end.
Proof.
  destruct (file r) as [f|] eqn:Hf.
  - destruct (isVideoFile f || isImageFile f) eqn:Hs.
    + do 2 eexists. split; [by apply (sendToBackend_supported r f)|].
      split; [unfold requestFor; by destruct (isVideoFile f)|].
      right. eexists. split; [done|]. unfold requestFor; by destruct (isVideoFile f).
    + apply orb_false_iff in Hs as [Hv Hi].
      do 2 eexists. split; [by apply (sendToBackend_unsupported r f)|].
      split; [done|]. by left.
  - do 2 eexists. split; [by apply sendToBackend_no_file|]. done.
Qed.

Lemma resumeFetch_shape isVideo o w :
  exists t es,
    resumeFetch isVideo o w = (Returned t, extend w es)
    /\ forallb keepsSelection es = true
    /\ ((t = Finished /\ isUploading (state (extend w es)) = false)
        \/ (exists response, t = AwaitJson isVideo response
            /\ isUploading (state (extend w es)) = isUploading (state w))).
Proof.
  destruct o as [response|e].
  - do 2 eexists. split; [apply resumeFetch_resolved|]. split; [done|].
    right. by eexists.
  - do 2 eexists. split; [apply resumeFetch_rejected|]. split; [done|]. by left.
Qed.

Lemma resumeJson_shape isVideo response j w :
  exists es,
    resumeJson isVideo response j w = (Returned Finished, extend w es)
    /\ forallb keepsSelection es = true
    /\ isUploading (state (extend w es)) = false.
Proof.
  destruct (ok response) eqn:Hok.
  - eexists. split; [by apply resumeJson_success|]. by destruct j.
  - eexists. split; [by apply resumeJson_failure|]. by destruct j.
Qed.

(** C9: on every path [sendToBackend] leaves [file], [previewUrl] and the
    object-URL store as they were; every call it makes is one that touches
    none of them.  This holds of a whole invocation and of each of its
    stretches between two suspensions. *)
Theorem submit_keeps_selection r o j w :
  (file (state (exec (submit r o j) w)) = file (state w)
   /\ previewUrl (state (exec (submit r o j) w)) = previewUrl (state w)
   /\ browser (exec (submit r o j) w) = browser w
   /\ forallb keepsSelection (added (submit r o j) w) = true)
  /\ (file (state (exec (sendToBackend r) w)) = file (state w)
      /\ previewUrl (state (exec (sendToBackend r) w)) = previewUrl (state w)
      /\ browser (exec (sendToBackend r) w) = browser w)
  /\ (forall isVideo,
      file (state (exec (resumeFetch isVideo o) w)) = file (state w)
      /\ previewUrl (state (exec (resumeFetch isVideo o) w)) = previewUrl (state w)
      /\ browser (exec (resumeFetch isVideo o) w) = browser w)
  /\ (forall isVideo response,
      file (state (exec (resumeJson isVideo response j) w)) = file (state w)
      /\ previewUrl (state (exec (resumeJson isVideo response j) w))
         = previewUrl (state w)
      /\ browser (exec (resumeJson isVideo response j) w) = browser w).
Proof.
  split; [|split; [|split]].
  - destruct (submit_shape r o j w) as (es & E & Hk & _).
    rewrite (added_extend _ _ _ (exec_eq _ _ _ _ E)), (exec_eq _ _ _ _ E).
    destruct (extend_keeps w es Hk) as (? & ? & ?). done.
  - destruct (sendToBackend_shape r w) as (t & es & E & Hk & _).
    rewrite (exec_eq _ _ _ _ E). by apply extend_keeps.
  - intros isVideo.
    destruct (resumeFetch_shape isVideo o w) as (t & es & E & Hk & _).
    rewrite (exec_eq _ _ _ _ E). by apply extend_keeps.
  - intros isVideo response.
    destruct (resumeJson_shape isVideo response j w) as (es & E & Hk & _).
    rewrite (exec_eq _ _ _ _ E). by apply extend_keeps.
Qed.

(** ** [clearFile] and [handleFileUpload] as lists of calls *)

Lemma revokeIfSet_extend url w :
  revokeIfSet url w = (Returned tt, extend w (revokeLog url)).
Proof.
  unfold revokeIfSet, revokeLog. destruct url as [u|].
  - destruct (truthy_url (Some u)); [done|]. by rewrite extend_nil.
  - by rewrite extend_nil.
Qed.

Lemma clearFile_extend r w :
  clearFile r w
  = (Returned tt,
     extend w (revokeLog (previewUrl r)
               ++ [SetFile None; SetPreviewUrl None; SetUploadStatus idle])).
Proof.
  unfold clearFile, mbind, M_bind, bind. rewrite revokeIfSet_extend.
  rewrite <- extend_app. unfold setFile, setPreviewUrl, setUploadStatus, perform.
  same_world.
Qed.

(** C10: [clearFile] leaves no file, no preview and the idle status, and
    [isUploading] as it was; a second call changes neither the state nor the
    object-URL store and revokes nothing; called with no preview it revokes
    nothing. *)
Theorem clearFile_idempotent r w :
  let w1 := exec (clearFile r) w in
  state w1 = mkState None None (isUploading (state w)) idle
  /\ (forall r', state (exec (clearFile r') w1) = state w1)
  /\ browser (exec (clearFile (state w1)) w1) = browser w1
  /\ revocations (added (clearFile (state w1)) w1) = []
  /\ (forall r0 w0, previewUrl r0 = None -> revocations (added (clearFile r0) w0) = []).
Proof.
  intros w1.
  assert (H1 : state w1 = mkState None None (isUploading (state w)) idle).
  { subst w1. rewrite (exec_eq _ _ _ _ (clearFile_extend r w)).
    unfold extend. simpl. rewrite foldl_app. simpl.
    f_equal. unfold revokeLog. destruct (previewUrl r); [|done].
    by destruct (truthy_url _). }
  split; [exact H1|]. split; [|split; [|split]].
  - intros r'. rewrite (exec_eq _ _ _ _ (clearFile_extend r' w1)).
    unfold extend. simpl. rewrite foldl_app. simpl. rewrite H1. f_equal.
    unfold revokeLog. destruct (previewUrl r'); [|done]. by destruct (truthy_url _).
  - rewrite (exec_eq _ _ _ _ (clearFile_extend _ w1)). rewrite H1. simpl.
    unfold extend. simpl. by destruct (browser w1).
  - rewrite (added_extend _ _ _ (exec_eq _ _ _ _ (clearFile_extend _ w1))).
    by rewrite H1.
  - intros r0 w0 Hn.
    rewrite (added_extend _ _ _ (exec_eq _ _ _ _ (clearFile_extend _ w0))).
    by rewrite Hn.
Qed.

(** * The mounted page *)

Lemma handleFileUpload_nil r w : handleFileUpload r [] w = (Returned tt, w).
Proof. reflexivity. Qed.

Lemma handleFileUpload_extend r f fs w :
  handleFileUpload r (f :: fs) w
  = (Returned tt, extend w (handlerLog (previewUrl r) f (nextBlob (browser w)))).
Proof.
  unfold handleFileUpload, handlerLog, mbind, M_bind, bind.
  unfold setFile, setUploadStatus. rewrite !perform_extend, extend_app.
  rewrite revokeIfSet_extend, extend_app.
  change ([SetFile (Some f)] ++ [SetUploadStatus idle])
    with [SetFile (Some f); SetUploadStatus idle].
  assert (Hn : nextBlob (browser (extend w ([SetFile (Some f); SetUploadStatus idle]
                                            ++ revokeLog (previewUrl r))))
               = nextBlob (browser w)).
  { unfold revokeLog. destruct (previewUrl r); [|done]. by destruct (truthy_url _). }
  unfold createObjectURL, setPreviewUrl, consoleLog. rewrite !perform_extend.
  rewrite Hn. rewrite !extend_app. by rewrite <- !app_assoc.
Qed.

Lemma effectCleanup_extend r w :
  effectCleanup r w = (Returned tt, extend w (revokeLog (previewUrl r))).
Proof. unfold effectCleanup. apply revokeIfSet_extend. Qed.

Lemma blobUrl_inj k k' : blobUrl k = blobUrl k' -> k = k'.
Proof.
  unfold blobUrl. intros H. cbn [String.append] in H.
  injection H as H. change ("" +:+ pretty k) with (pretty k) in H.
  change ("" +:+ pretty k') with (pretty k') in H.
  exact (pretty_nat_inj _ _ H).
Qed.

Lemma revokeLog_blobUrl k : revokeLog (Some (blobUrl k)) = [RevokeObjectURL (blobUrl k)].
Proof. reflexivity. Qed.

Lemma replay_app tr es :
  replay (tr ++ es) = foldl (fun b e => apply_browser e b) (replay tr) es.
Proof. unfold replay. by rewrite foldl_app. Qed.

Lemma at_most_one (X : gset string) u : X ⊆ {[u]} -> (base.size X ≤ 1)%nat.
Proof. intros H. apply subseteq_size in H. by rewrite size_singleton in H. Qed.

Lemma boundedAlong_head b es : boundedAlong b es -> (base.size (live b) ≤ 1)%nat.
Proof. destruct es; simpl; tauto. Qed.

Lemma boundedAlong_app b es es' :
  boundedAlong b es ->
  boundedAlong (foldl (fun b e => apply_browser e b) b es) es' ->
  boundedAlong b (es ++ es').
Proof.
  revert b. induction es as [|e es IH]; intros b H H'; simpl in *; [done|].
  destruct H as [Hb H]. split; [done|]. by apply IH.
Qed.

Lemma boundedAlong_prefix b es tr :
  boundedAlong b es -> tr `prefix_of` es ->
  (base.size (live (foldl (fun b e => apply_browser e b) b tr)) ≤ 1)%nat.
Proof.
  revert b es. induction tr as [|e tr IH]; intros b es H Hp; simpl.
  - by apply boundedAlong_head in H.
  - destruct es as [|e' es]; [by apply prefix_nil_not in Hp|].
    pose proof (prefix_cons_inv_1 _ _ _ _ Hp) as ->.
    apply prefix_cons_inv_2 in Hp. destruct H as [_ H]. by apply (IH _ es).
Qed.

Lemma render_same q :
  previewUrl (effectRender q) = previewUrl (state (world q)) -> render q = q.
Proof. intros H. unfold render. by rewrite decide_True. Qed.

Lemma render_changed q :
  previewUrl (effectRender q) <> previewUrl (state (world q)) ->
  render q
  = mkPage (extend (world q) (revokeLog (previewUrl (effectRender q))))
           (state (world q)) (task q) (mounted q).
Proof.
  intros H. unfold render. rewrite decide_False by done.
  by rewrite (exec_eq _ _ _ _ (effectCleanup_extend _ _)).
Qed.

Lemma initialPage_inv : PageInv initialPage.
Proof.
  split; try done.
  split; [|done]. apply (at_most_one _ ""). set_solver.
Qed.

Lemma replay_extend w es :
  browser w = replay (trace w) ->
  browser (extend w es) = replay (trace (extend w es)).
Proof. intros H. simpl. by rewrite replay_app, <- H. Qed.

Lemma bounded_extend w es :
  browser w = replay (trace w) ->
  boundedAlong (mkBrowser 0 ∅) (trace w) ->
  boundedAlong (browser w) es ->
  boundedAlong (mkBrowser 0 ∅) (trace (extend w es)).
Proof.
  intros Hr Hb Hes. simpl. apply boundedAlong_app; [done|].
  fold (replay (trace w)). by rewrite <- Hr.
Qed.

(** Calls that leave the store alone keep it bounded. *)
Lemma bounded_keeps b es :
  forallb keepsSelection es = true ->
  (base.size (live b) ≤ 1)%nat -> boundedAlong b es.
Proof.
  revert b. induction es as [|e es IH]; intros b H Hb; simpl; [done|].
  simpl in H. apply andb_prop in H as [He Hes]. split; [done|].
  assert (apply_browser e b = b) as -> by (by destruct e). by apply IH.
Qed.

Ltac one_live u u' :=
  first [ apply (at_most_one _ u); set_solver
        | apply (at_most_one _ u'); set_solver ].

Lemma state_revokeLog w es url :
  state (extend w (es ++ revokeLog url)) = state (extend w es).
Proof.
  rewrite <- extend_app. unfold revokeLog.
  destruct url as [u|]; [|by rewrite extend_nil].
  destruct (truthy_url (Some u)); [done|by rewrite extend_nil].
Qed.

Lemma state_handlerLog w old f n :
  state (extend w (handlerLog old f n))
  = mkState (Some f) (Some (blobUrl n)) (isUploading (state w)) idle.
Proof.
  unfold handlerLog, revokeLog.
  destruct old as [u|]; [destruct (truthy_url (Some u))|]; reflexivity.
Qed.

Lemma browser_handlerLog_none w f n :
  live (browser w) = ∅ ->
  browser (extend w (handlerLog None f n))
  = mkBrowser (S (nextBlob (browser w))) {[blobUrl n]}.
Proof. intros H. unfold handlerLog, extend. simpl. f_equal. rewrite H. set_solver. Qed.

Lemma browser_selectLog_some w f k n :
  live (browser w) ⊆ {[blobUrl k]} -> k <> n ->
  browser (extend w (selectLog (Some (blobUrl k)) f n))
  = mkBrowser (S (nextBlob (browser w))) {[blobUrl n]}.
Proof.
  intros H Hne. unfold selectLog, handlerLog, extend. rewrite revokeLog_blobUrl.
  simpl. f_equal.
  assert (blobUrl k <> blobUrl n) by (intros E; by apply blobUrl_inj in E).
  set_solver.
Qed.

Lemma bounded_selectLog_none b f n :
  live b = ∅ -> boundedAlong b (selectLog None f n).
Proof.
  intros H. unfold selectLog, handlerLog. simpl. rewrite H.
  repeat split; one_live (blobUrl n) (blobUrl n).
Qed.

Lemma bounded_selectLog_some b f k n :
  live b ⊆ {[blobUrl k]} -> boundedAlong b (selectLog (Some (blobUrl k)) f n).
Proof.
  intros H. unfold selectLog, handlerLog. rewrite revokeLog_blobUrl. simpl.
  repeat split; one_live (blobUrl k) (blobUrl n).
Qed.

(** A selection, call by call. *)
Lemma dispatch_select p f fs :
  mounted p = true ->
  previewUrl (effectRender p) = previewUrl (state (world p)) ->
  previewUrl (state (world p)) <> Some (blobUrl (nextBlob (browser (world p)))) ->
  let old := previewUrl (state (world p)) in
  let n := nextBlob (browser (world p)) in
  dispatch (Select (f :: fs)) p
  = Some (mkPage (extend (world p) (selectLog old f n))
                 (state (extend (world p) (handlerLog old f n)))
                 (task p) true).
Proof.
  intros Hm Heff Hne old n. unfold dispatch. rewrite Hm. cbn [negb].
  rewrite (exec_eq _ _ _ _ (handleFileUpload_extend _ f fs _)).
  rewrite render_changed; cbn [world effectRender task mounted].
  - rewrite extend_app, Heff. reflexivity.
  - rewrite state_handlerLog, Heff. simpl. exact Hne.
Qed.

(** ** The invariant of the page *)

Lemma PageInv_pack w er t m :
  browser w = replay (trace w) ->
  (m = true -> previewUrl er = previewUrl (state w)) ->
  match previewUrl (state w) with
  | None => live (browser w) = ∅
  | Some u =>
      (exists k, u = blobUrl k /\ (k < nextBlob (browser w))%nat)
      /\ live (browser w) ⊆ {[u]}
      /\ (m = true -> live (browser w) = {[u]})
  end ->
  (forall k, blobUrl k ∈ live (browser w) -> (k < nextBlob (browser w))%nat) ->
  (isUploading (state w) = true <-> t <> Finished) ->
  boundedAlong (mkBrowser 0 ∅) (trace w) ->
  PageInv (mkPage w er t m).
Proof. intros. by split. Qed.

Lemma live_bounded p : PageInv p -> (base.size (live (browser (world p))) ≤ 1)%nat.
Proof.
  intros [Hrep _ _ _ _ Hb]. rewrite Hrep.
  apply (boundedAlong_prefix _ (trace (world p)) (trace (world p))); done.
Qed.

Lemma remounted p : mounted p = true -> mkPage (world p) (effectRender p) (task p) true = p.
Proof. destruct p. simpl. by intros ->. Qed.

Lemma preview_not_next p :
  PageInv p ->
  previewUrl (state (world p)) <> Some (blobUrl (nextBlob (browser (world p)))).
Proof.
  intros [_ _ Hprev _ _ _] E. rewrite E in Hprev.
  destruct Hprev as ((k & Hk & Hlt) & _). apply blobUrl_inj in Hk. lia.
Qed.

(** Steps of [sendToBackend]: nothing of the selection moves. *)
Lemma quiet_step_inv p es t :
  PageInv p -> mounted p = true ->
  forallb keepsSelection es = true ->
  (isUploading (state (extend (world p) es)) = true <-> t <> Finished) ->
  PageInv (render (mkPage (extend (world p) es) (effectRender p) t true)).
Proof.
  intros Hinv Hm Hk Ht. pose proof (live_bounded p Hinv) as Hsz.
  destruct Hinv as [Hrep Heff Hprev Hfresh Htask Hbound].
  destruct (extend_keeps (world p) es Hk) as (Hfile & Hpu & Hbr).
  rewrite render_same
    by (cbn [world effectRender]; rewrite Hpu; by apply Heff).
  apply PageInv_pack.
  - by apply replay_extend.
  - intros _. rewrite Hpu. by apply Heff.
  - rewrite Hpu, Hbr. destruct (previewUrl (state (world p))); [|done].
    destruct Hprev as (Hk' & Hsub & Hlive). split; [done|]. split; [done|].
    intros _. by apply Hlive.
  - by rewrite Hbr.
  - done.
  - apply bounded_extend; [done..|]. by apply bounded_keeps.
Qed.

Lemma select_inv p f fs p' :
  PageInv p -> dispatch (Select (f :: fs)) p = Some p' -> PageInv p'.
Proof.
  intros Hinv Hd. pose proof (preview_not_next p Hinv) as Hne.
  destruct (mounted p) eqn:Hm; [|by unfold dispatch in Hd; rewrite Hm in Hd].
  destruct Hinv as [Hrep Heff Hprev Hfresh Htask Hbound].
  rewrite (dispatch_select p f fs Hm (Heff Hm) Hne) in Hd.
  apply (inj Some) in Hd. subst p'.
  set (n := nextBlob (browser (world p))) in *.
  assert (Hst : state (extend (world p) (selectLog (previewUrl (state (world p))) f n))
                = mkState (Some f) (Some (blobUrl n))
                          (isUploading (state (world p))) idle).
  { unfold selectLog. by rewrite state_revokeLog, state_handlerLog. }
  assert (Hbr : browser (extend (world p) (selectLog (previewUrl (state (world p))) f n))
                = mkBrowser (S n) {[blobUrl n]}
                /\ boundedAlong (browser (world p))
                     (selectLog (previewUrl (state (world p))) f n)).
  { destruct (previewUrl (state (world p))) as [u|].
    - destruct Hprev as ((k & -> & Hk) & Hsub & _). split.
      + apply browser_selectLog_some; [done|]. subst n. lia.
      + by apply bounded_selectLog_some.
    - split.
      + unfold selectLog. simpl revokeLog. rewrite app_nil_r.
        by apply browser_handlerLog_none.
      + by apply bounded_selectLog_none. }
  destruct Hbr as [Hbr Hbd].
  apply PageInv_pack.
  - by apply replay_extend.
  - intros _. rewrite Hst, state_handlerLog. done.
  - rewrite Hst, Hbr. simpl. split; [exists n; split; [done|lia]|]. done.
  - rewrite Hbr. simpl. intros k Hk. apply elem_of_singleton in Hk.
    apply blobUrl_inj in Hk. lia.
  - by rewrite Hst.
  - by apply bounded_extend.
Qed.

Lemma dispatch_clear p :
  mounted p = true ->
  previewShown (state (world p)) = true ->
  previewUrl (effectRender p) = previewUrl (state (world p)) ->
  let old := previewUrl (state (world p)) in
  dispatch Clear p
  = Some (mkPage (extend (world p) (clearLog old))
                 (state (extend (world p)
                           (revokeLog old
                            ++ [SetFile None; SetPreviewUrl None; SetUploadStatus idle])))
                 (task p) true).
Proof.
  intros Hm Hs Heff old. unfold dispatch. rewrite Hm, Hs. cbn [negb].
  rewrite (exec_eq _ _ _ _ (clearFile_extend _ _)).
  assert (Hnone : previewUrl (state (extend (world p)
                     (revokeLog old
                      ++ [SetFile None; SetPreviewUrl None; SetUploadStatus idle])))
                  = None).
  { rewrite <- extend_app. reflexivity. }
  rewrite render_changed.
  - cbn [world effectRender task mounted].
    unfold clearLog. rewrite extend_app, Heff. reflexivity.
  - change (previewUrl (effectRender p) <> previewUrl (state (extend (world p)
              (revokeLog old
               ++ [SetFile None; SetPreviewUrl None; SetUploadStatus idle])))).
    rewrite Hnone, Heff. unfold previewShown in Hs.
    destruct (file (state (world p))); [|done].
    by destruct (previewUrl (state (world p))).
Qed.

Lemma clear_inv p p' : PageInv p -> dispatch Clear p = Some p' -> PageInv p'.
Proof.
  intros Hinv Hd.
  destruct (mounted p) eqn:Hm; [|by unfold dispatch in Hd; rewrite Hm in Hd].
  destruct (previewShown (state (world p))) eqn:Hs;
    [|by unfold dispatch in Hd; rewrite Hm, Hs in Hd].
  destruct Hinv as [Hrep Heff Hprev Hfresh Htask Hbound].
  rewrite (dispatch_clear p Hm Hs (Heff Hm)) in Hd.
  apply (inj Some) in Hd. subst p'.
  unfold previewShown in Hs. destruct (file (state (world p))); [|done].
  destruct (previewUrl (state (world p))) as [u|] eqn:Hu; [|done].
  destruct Hprev as ((k & -> & Hk) & Hsub & _).
  assert (Hlog : clearLog (Some (blobUrl k))
                 = [RevokeObjectURL (blobUrl k); SetFile None; SetPreviewUrl None;
                    SetUploadStatus idle; RevokeObjectURL (blobUrl k)]) by done.
  rewrite Hlog.
  assert (Hlive : live (browser (world p)) ∖ {[blobUrl k]} ∖ {[blobUrl k]} = ∅)
    by set_solver.
  apply PageInv_pack.
  - by apply replay_extend.
  - done.
  - simpl. exact Hlive.
  - simpl. rewrite Hlive. set_solver.
  - done.
  - apply bounded_extend; [done..|]. simpl.
    repeat split; one_live (blobUrl k) (blobUrl k).
Qed.

Lemma dispatch_unmount p :
  mounted p = true ->
  dispatch Unmount p
  = Some (mkPage (extend (world p) (revokeLog (previewUrl (effectRender p))))
                 (effectRender p) (task p) false).
Proof.
  intros Hm. unfold dispatch. rewrite Hm. cbn [negb].
  by rewrite (exec_eq _ _ _ _ (effectCleanup_extend _ _)).
Qed.

Lemma unmount_inv p p' : PageInv p -> dispatch Unmount p = Some p' -> PageInv p'.
Proof.
  intros Hinv Hd.
  destruct (mounted p) eqn:Hm; [|by unfold dispatch in Hd; rewrite Hm in Hd].
  destruct Hinv as [Hrep Heff Hprev Hfresh Htask Hbound].
  rewrite (dispatch_unmount p Hm) in Hd. apply (inj Some) in Hd. subst p'.
  rewrite (Heff Hm).
  assert (Hst : state (extend (world p) (revokeLog (previewUrl (state (world p)))))
                = state (world p))
    by (rewrite <- (app_nil_l (revokeLog _)), state_revokeLog; by rewrite extend_nil).
  apply PageInv_pack.
  - by apply replay_extend.
  - done.
  - rewrite Hst. destruct (previewUrl (state (world p))) as [u|]; [|done].
    destruct Hprev as ((k & -> & Hk) & Hsub & _).
    split; [by exists k|]. split; [|done]. simpl. set_solver.
  - intros k Hk. destruct (previewUrl (state (world p))) as [u|]; [|by apply Hfresh].
    destruct Hprev as ((k' & -> & Hk') & Hsub & _). simpl in Hk. set_solver.
  - by rewrite Hst.
  - apply bounded_extend; [done..|].
    destruct (previewUrl (state (world p))) as [u|].
    + destruct Hprev as ((k & -> & Hk) & Hsub & _). simpl.
      repeat split; one_live (blobUrl k) (blobUrl k).
    + simpl. split; [|done]. rewrite Hprev. one_live "" "".
Qed.

Lemma send_inv p p' : PageInv p -> dispatch Send p = Some p' -> PageInv p'.
Proof.
  intros Hinv Hd. unfold dispatch in Hd.
  destruct (mounted p) eqn:Hm; [|done]. cbn [negb] in Hd.
  destruct (previewShown (state (world p))) eqn:Hs; [|done].
  destruct (isUploading (state (world p))) eqn:Hup; [done|]. cbn [negb andb] in Hd.
  destruct (sendToBackend_shape (state (world p)) (world p)) as (t & es & E & Hk & Ht).
  rewrite E in Hd. apply (inj Some) in Hd. subst p'.
  apply quiet_step_inv; [done..|].
  unfold previewShown in Hs. destruct (file (state (world p))); [|done].
  destruct Ht as [[-> ->]|(v & -> & ->)]; split; done.
Qed.

Lemma fetchSettled_inv o p p' :
  PageInv p -> dispatch (FetchSettled o) p = Some p' -> PageInv p'.
Proof.
  intros Hinv Hd. unfold dispatch in Hd.
  destruct (mounted p) eqn:Hm; [|done]. cbn [negb] in Hd.
  destruct (task p) as [|isVideo|] eqn:Htask; try done.
  destruct (resumeFetch_shape isVideo o (world p)) as (t & es & E & Hk & Ht).
  rewrite E in Hd. apply (inj Some) in Hd. subst p'.
  apply quiet_step_inv; [done..|].
  destruct Ht as [[-> ->]|(response & -> & ->)]; [done|].
  split; [done|]. intros _. apply (inv_task p Hinv). by rewrite Htask.
Qed.

Lemma jsonSettled_inv j p p' :
  PageInv p -> dispatch (JsonSettled j) p = Some p' -> PageInv p'.
Proof.
  intros Hinv Hd. unfold dispatch in Hd.
  destruct (mounted p) eqn:Hm; [|done]. cbn [negb] in Hd.
  destruct (task p) as [| |isVideo response] eqn:Htask; try done.
  destruct (resumeJson_shape isVideo response j (world p)) as (es & E & Hk & Ht).
  rewrite E in Hd. apply (inj Some) in Hd. subst p'.
  apply quiet_step_inv; [done..|]. by rewrite Ht.
Qed.

Lemma select_nil_inv p p' : PageInv p -> dispatch (Select []) p = Some p' -> PageInv p'.
Proof.
  intros Hinv Hd. unfold dispatch in Hd.
  destruct (mounted p) eqn:Hm; [|done]. cbn [negb] in Hd.
  rewrite (exec_eq _ _ _ _ (handleFileUpload_nil _ _)) in Hd.
  rewrite render_same in Hd by (by apply (inv_effect p Hinv)).
  rewrite (remounted p Hm) in Hd. by apply (inj Some) in Hd as <-.
Qed.

Lemma dispatch_inv ev p p' : PageInv p -> dispatch ev p = Some p' -> PageInv p'.
Proof.
  destruct ev as [[|f fs]| | | | |].
  - apply select_nil_inv.
  - apply select_inv.
  - apply clear_inv.
  - apply send_inv.
  - apply fetchSettled_inv.
  - apply jsonSettled_inv.
  - apply unmount_inv.
Qed.

Lemma run_inv evs p p' : PageInv p -> run evs p = Some p' -> PageInv p'.
Proof.
  revert p. induction evs as [|ev evs IH]; intros p Hinv Hr; simpl in Hr.
  - by injection Hr as <-.
  - destruct (dispatch ev p) as [q|] eqn:Hd; [|done].
    apply (IH q); [|done]. by apply (dispatch_inv ev p).
Qed.

Lemma reachable_inv evs p : run evs initialPage = Some p -> PageInv p.
Proof. apply run_inv, initialPage_inv. Qed.

Lemma reachable_bounded evs p tr :
  run evs initialPage = Some p ->
  tr `prefix_of` trace (world p) -> (base.size (liveAfter tr) ≤ 1)%nat.
Proof.
  intros Hr Hp. apply reachable_inv in Hr.
  apply (boundedAlong_prefix _ (trace (world p))); [apply (inv_bounded p Hr)|done].
Qed.

(** ** Counting revocations *)

Lemma revokeCalls_app u tr tr' :
  revokeCalls u (tr ++ tr') = (revokeCalls u tr + revokeCalls u tr')%nat.
Proof.
  unfold revokeCalls, revocations. by rewrite omap_app, List.filter_app, length_app.
Qed.

Lemma blobUrl_eqb k m : String.eqb (blobUrl k) (blobUrl m) = bool_decide (k = m).
Proof.
  case_bool_decide as H.
  - subst. apply String.eqb_refl.
  - apply String.eqb_neq. intros E. by apply blobUrl_inj in E.
Qed.

Lemma revokeCalls_handlerLog u old f n :
  revokeCalls u (handlerLog old f n) = revokeCalls u (revokeLog old).
Proof.
  unfold handlerLog. rewrite !revokeCalls_app. simpl.
  change (revokeCalls u [SetFile (Some f); SetUploadStatus idle]) with 0%nat.
  change (revokeCalls u [CreateObjectURL f (blobUrl n); SetPreviewUrl (Some (blobUrl n));
                         ConsoleLog "selectedFile"]) with 0%nat.
  lia.
Qed.

Lemma revokeCalls_revoke u v tr :
  revokeCalls u (RevokeObjectURL v :: tr)
  = ((if String.eqb u v then 1 else 0) + revokeCalls u tr)%nat.
Proof. unfold revokeCalls. simpl. by destruct (String.eqb u v). Qed.

Lemma revokeCalls_revokeLog k m :
  revokeCalls (blobUrl k) (revokeLog (Some (blobUrl m)))
  = if bool_decide (k = m) then 1%nat else 0%nat.
Proof.
  rewrite revokeLog_blobUrl, revokeCalls_revoke, blobUrl_eqb.
  change (revokeCalls (blobUrl k) []) with 0%nat. case_bool_decide; lia.
Qed.

Lemma select_step n p sel :
  PageInv p -> afterSelections n p ->
  exists p', dispatch (selectOne sel) p = Some p' /\ afterSelections (S n) p'.
Proof.
  intros Hinv (Hm & Hn & Hpu & Hcount). destruct sel as [f fs].
  pose proof (preview_not_next p Hinv) as Hne.
  unfold selectOne. cbn [fst snd].
  rewrite (dispatch_select p f fs Hm (inv_effect p Hinv Hm) Hne).
  eexists. split; [reflexivity|].
  pose proof (select_inv p f fs _ Hinv
                (dispatch_select p f fs Hm (inv_effect p Hinv Hm) Hne)) as Hinv'.
  rewrite Hn in *. rewrite Hpu in *.
  split; [done|]. split; [|split].
  - cbn [world]. pose proof (inv_preview p Hinv) as Hp0. rewrite Hpu in Hp0.
    destruct n as [|m].
    + unfold selectLog. simpl revokeLog. rewrite app_nil_r.
      rewrite browser_handlerLog_none by done. simpl. by rewrite Hn.
    + rewrite browser_selectLog_some; [simpl; by rewrite Hn|tauto|lia].
  - cbn [world]. unfold selectLog. by rewrite state_revokeLog, state_handlerLog.
  - intros k. cbn [world trace extend]. rewrite revokeCalls_app, Hcount.
    unfold selectLog. rewrite revokeCalls_app, revokeCalls_handlerLog.
    destruct n as [|m].
    + simpl. by destruct k.
    + rewrite revokeCalls_revokeLog.
      case_bool_decide; subst;
        repeat match goal with
               | |- context [(?a <? ?b)%nat] => destruct (Nat.ltb_spec a b)
               end; lia.
Qed.

Lemma selections_from n p sels :
  PageInv p -> afterSelections n p ->
  exists p',
    run (map selectOne sels) p = Some p'
    /\ afterSelections (n + length sels) p'.
Proof.
  revert n p. induction sels as [|sel sels IH]; intros n p Hinv Hn.
  - exists p. split; [done|]. by rewrite Nat.add_0_r.
  - destruct (select_step n p sel Hinv Hn) as (q & Hd & Hq).
    destruct (IH (S n) q) as (p' & Hr & Hp');
      [by apply (dispatch_inv (selectOne sel) p)|done|].
    exists p'. simpl. rewrite Hd. split; [done|].
    by replace (n + S (length sels))%nat with (S n + length sels)%nat by lia.
Qed.

Lemma initialPage_selections : afterSelections 0 initialPage.
Proof. repeat split. Qed.

(** * The claims about the preview and the in-flight flag *)

(** C1 as stated fails: after two selections the first object URL, which the
    second superseded, has been revoked twice, not once. *)
Lemma superseded_revoked_twice :
  exists p,
    run [Select [png]; Select [mp4]] initialPage = Some p
    /\ previewUrl (state (world p)) = Some (blobUrl 1)
    /\ revokeCalls (blobUrl 0) (trace (world p)) = 2%nat
    /\ revokeCalls (blobUrl 0) (trace (world p)) <> 1%nat.
Proof.
  destruct (selections_from 0 initialPage [(png, []); (mp4, [])]
              initialPage_inv initialPage_selections) as (p & Hr & _ & _ & Hpu & Hc).
  exists p. split; [exact Hr|]. split; [exact Hpu|].
  rewrite (Hc 0%nat). split; [reflexivity|discriminate].
Qed.

(** C1, amended: whatever the events, at most one object URL is live after
    each call of the log.  After N selections in a row the N-th object URL is
    the preview and the only live one, and each of the N-1 superseded ones has
    been revoked by exactly two calls, one of [handleFileUpload] and one of
    the cleanup of the effect; unmounting then revokes the N-th by exactly
    one call and leaves none live. *)
Theorem preview_lifecycle (sels : list (File * list File)) :
  let N := length sels in
  (forall evs p tr,
      run evs initialPage = Some p ->
      tr `prefix_of` trace (world p) -> (base.size (liveAfter tr) ≤ 1)%nat)
  /\ exists p,
      run (map selectOne sels) initialPage = Some p
      /\ (forall k, (S k < N)%nat -> revokeCalls (blobUrl k) (trace (world p)) = 2%nat)
      /\ (forall k, (N ≤ S k)%nat -> revokeCalls (blobUrl k) (trace (world p)) = 0%nat)
      /\ ((0 < N)%nat ->
          previewUrl (state (world p)) = Some (blobUrl (N - 1))
          /\ live (browser (world p)) = {[blobUrl (N - 1)]})
      /\ exists q,
          dispatch Unmount p = Some q
          /\ (forall k, (S k < N)%nat -> revokeCalls (blobUrl k) (trace (world q)) = 2%nat)
          /\ ((0 < N)%nat -> revokeCalls (blobUrl (N - 1)) (trace (world q)) = 1%nat)
          /\ live (browser (world q)) = ∅.
Proof.
  intros N. split; [apply reachable_bounded|].
  destruct (selections_from 0 initialPage sels initialPage_inv initialPage_selections)
    as (p & Hr & Hm & Hn & Hpu & Hc).
  pose proof (reachable_inv _ _ Hr) as Hinv.
  change (0 + length sels)%nat with N in *.
  exists p. split; [exact Hr|].
  assert (H2 : forall k, (S k < N)%nat -> revokeCalls (blobUrl k) (trace (world p)) = 2%nat).
  { intros k Hk. rewrite Hc. by destruct (Nat.ltb_spec (S k) N); [|lia]. }
  assert (H0 : forall k, (N ≤ S k)%nat -> revokeCalls (blobUrl k) (trace (world p)) = 0%nat).
  { intros k Hk. rewrite Hc. by destruct (Nat.ltb_spec (S k) N); [lia|]. }
  split; [exact H2|]. split; [exact H0|].
  pose proof (inv_preview p Hinv) as Hprev. rewrite Hpu in Hprev.
  split.
  { intros HN. destruct N as [|m]; [lia|].
    replace (S m - 1)%nat with m by lia. split; [done|].
    destruct Hprev as (_ & _ & Hlive). by apply Hlive. }
  rewrite (dispatch_unmount p Hm). eexists. split; [reflexivity|].
  cbn [world trace extend browser].
  rewrite (inv_effect p Hinv Hm), Hpu.
  destruct N as [|m].
  - simpl. split; [intros; lia|]. split; [intros; lia|]. done.
  - replace (S m - 1)%nat with m by lia.
    split; [|split].
    + intros k Hk. rewrite revokeCalls_app, (H2 k Hk), revokeCalls_revokeLog.
      case_bool_decide; lia.
    + intros _. rewrite revokeCalls_app, (H0 m), revokeCalls_revokeLog by lia.
      by rewrite bool_decide_true.
    + destruct Hprev as (_ & Hsub & _). simpl. set_solver.
Qed.

Lemma preview_lifecycle_witness :
  exists p,
    run [Select [png]; Select [mp4; png]; Select [pdf]] initialPage = Some p
    /\ revokeCalls (blobUrl 0) (trace (world p)) = 2%nat
    /\ revokeCalls (blobUrl 1) (trace (world p)) = 2%nat
    /\ revokeCalls (blobUrl 2) (trace (world p)) = 0%nat.
Proof.
  destruct (preview_lifecycle [(png, []); (mp4, [png]); (pdf, [])])
    as (_ & p & Hr & H2 & H0 & _).
  exists p. split; [exact Hr|].
  split; [apply H2; simpl; lia|]. split; [apply H2; simpl; lia|].
  apply H0; simpl; lia.
Defined.

(** C2: an invocation of [sendToBackend] with a file selected first raises
    [isUploading], before any request, lowers it as its last call on every
    path, and does not touch it in between, so that it is raised throughout;
    and on every page the events can produce [isUploading] is raised exactly
    while an invocation is suspended, hence lowered at all other times. *)
Theorem isUploading_brackets r f o j w evs p :
  file r = Some f ->
  run evs initialPage = Some p ->
  (exists mid,
      added (submit r o j) w = SetIsUploading true :: mid ++ [SetIsUploading false]
      /\ forallb (fun e => negb (isSetIsUploading e)) mid = true
      /\ (forall mid', mid' `prefix_of` mid ->
          isUploading (state (extend w (SetIsUploading true :: mid'))) = true)
      /\ isUploading (state (exec (submit r o j) w)) = false)
  /\ (isUploading (state (world p)) = true <-> task p <> Finished)
  /\ (task p = Finished -> isUploading (state (world p)) = false).
Proof.
  intros Hf Hr. split.
  - destruct (submit_shape r o j w) as (es & E & _ & Hshape).
    rewrite Hf in Hshape. destruct Hshape as (mid & -> & Hmid).
    exists mid. rewrite (added_extend _ _ _ (exec_eq _ _ _ _ E)).
    split; [done|]. split; [done|]. split.
    + intros mid' [rest ->]. rewrite forallb_app in Hmid.
      apply andb_prop in Hmid as [Hmid' _].
      change (SetIsUploading true :: mid') with ([SetIsUploading true] ++ mid').
      rewrite <- extend_app. by rewrite extend_isUploading.
    + rewrite (exec_eq _ _ _ _ E).
      change (SetIsUploading true :: mid ++ [SetIsUploading false])
        with ((SetIsUploading true :: mid) ++ [SetIsUploading false]).
      by rewrite <- extend_app.
  - pose proof (inv_task p (reachable_inv _ _ Hr)) as Ht. split; [exact Ht|].
    intros Hfin. destruct (isUploading (state (world p))); [|done].
    by destruct (proj1 Ht eq_refl).
Qed.

Lemma isUploading_brackets_witness :
  added (submit (holding mp4 None) (Rejected (NonError Js.Null)) (Parsed Js.Null))
    emptyWorld
  = [SetIsUploading true; SetUploadStatus idle; videoRequest mp4;
     SetUploadStatus (errorStatus "Failed to upload file");
     ConsoleError "Upload error:"; SetIsUploading false]
  /\ exists p,
      run [Select [mp4]; Send] initialPage = Some p
      /\ task p = AwaitFetch true
      /\ isUploading (state (world p)) = true.
Proof.
  split; [reflexivity|].
  eexists. split; [reflexivity|]. split; [reflexivity|].
  eapply (isUploading_brackets (holding mp4 None) mp4 (Rejected (NonError Js.Null))
            (Parsed Js.Null) emptyWorld [Select [mp4]; Send]);
    [reflexivity | reflexivity | discriminate].
Defined.

Lemma clearFile_idempotent_witness :
  revocations (added (clearFile initialState) emptyWorld) = []
  /\ state (exec (clearFile (holding png (Some (blobUrl 0)))) emptyWorld)
     = mkState None None false idle.
Proof.
  destruct (clearFile_idempotent (holding png (Some (blobUrl 0))) emptyWorld)
    as (Hs & _ & _ & _ & Hn).
  split; [apply Hn; reflexivity | exact Hs].
Defined.

(** * Further properties of the page *)

(** ** What each event does to the state *)

Lemma quiet_render p es t :
  PageInv p -> mounted p = true ->
  forallb keepsSelection es = true ->
  render (mkPage (extend (world p) es) (effectRender p) t true)
  = mkPage (extend (world p) es) (effectRender p) t true.
Proof.
  intros Hinv Hm Hk. apply render_same. cbn [world effectRender].
  destruct (extend_keeps (world p) es Hk) as (_ & -> & _).
  by apply (inv_effect p Hinv).
Qed.

Lemma dispatch_select_nil p :
  PageInv p -> mounted p = true -> dispatch (Select []) p = Some p.
Proof.
  intros Hinv Hm. unfold dispatch. rewrite Hm. cbn [negb].
  rewrite (exec_eq _ _ _ _ (handleFileUpload_nil _ _)).
  rewrite render_same by (by apply (inv_effect p Hinv)).
  by rewrite (remounted p Hm).
Qed.

Lemma state_clearLog w old :
  state (extend w (clearLog old))
  = mkState None None (isUploading (state w)) idle.
Proof.
  unfold clearLog. rewrite state_revokeLog. unfold revokeLog.
  destruct old as [u|]; [destruct (truthy_url (Some u))|]; reflexivity.
Qed.

Lemma dispatch_mounted ev p p' : dispatch ev p = Some p' -> mounted p = true.
Proof. unfold dispatch. by destruct (mounted p). Qed.

(** The state after an event, read off the handler that served it. *)
Lemma dispatch_state ev p p' :
  PageInv p -> dispatch ev p = Some p' ->
  match ev with
  | Select [] => p' = p
  | Select (f :: _) =>
      state (world p')
      = mkState (Some f) (Some (blobUrl (nextBlob (browser (world p)))))
                (isUploading (state (world p))) idle
  | Clear => state (world p') = mkState None None (isUploading (state (world p))) idle
  | Unmount => state (world p') = state (world p)
  | _ =>
      file (state (world p')) = file (state (world p))
      /\ previewUrl (state (world p')) = previewUrl (state (world p))
      /\ browser (world p') = browser (world p)
  end.
Proof.
  intros Hinv Hd. pose proof (dispatch_mounted _ _ _ Hd) as Hm.
  destruct ev as [[|f fs]| | |o|j|].
  - rewrite (dispatch_select_nil p Hinv Hm) in Hd. by apply (inj Some) in Hd.
  - rewrite (dispatch_select p f fs Hm (inv_effect p Hinv Hm) (preview_not_next p Hinv))
      in Hd.
    apply (inj Some) in Hd. subst p'. cbn [world]. unfold selectLog.
    by rewrite state_revokeLog, state_handlerLog.
  - destruct (previewShown (state (world p))) eqn:Hs;
      [|by unfold dispatch in Hd; rewrite Hm, Hs in Hd].
    rewrite (dispatch_clear p Hm Hs (inv_effect p Hinv Hm)) in Hd.
    apply (inj Some) in Hd. subst p'. cbn [world]. apply state_clearLog.
  - unfold dispatch in Hd. rewrite Hm in Hd. cbn [negb] in Hd.
    destruct (previewShown (state (world p)) && negb (isUploading (state (world p))));
      [|done].
    destruct (sendToBackend_shape (state (world p)) (world p)) as (t & es & E & Hk & _).
    rewrite E, (quiet_render p es t Hinv Hm Hk) in Hd.
    apply (inj Some) in Hd. subst p'. by apply extend_keeps.
  - unfold dispatch in Hd. rewrite Hm in Hd. cbn [negb] in Hd.
    destruct (task p) as [|isVideo|]; try done.
    destruct (resumeFetch_shape isVideo o (world p)) as (t & es & E & Hk & _).
    rewrite E, (quiet_render p es t Hinv Hm Hk) in Hd.
    apply (inj Some) in Hd. subst p'. by apply extend_keeps.
  - unfold dispatch in Hd. rewrite Hm in Hd. cbn [negb] in Hd.
    destruct (task p) as [| |isVideo response]; try done.
    destruct (resumeJson_shape isVideo response j (world p)) as (es & E & Hk & _).
    rewrite E, (quiet_render p es Finished Hinv Hm Hk) in Hd.
    apply (inj Some) in Hd. subst p'. by apply extend_keeps.
  - rewrite (dispatch_unmount p Hm) in Hd. apply (inj Some) in Hd. subst p'.
    cbn [world]. rewrite <- (app_nil_l (revokeLog _)), state_revokeLog.
    by rewrite extend_nil.
Qed.

Lemma dispatch_paired ev p p' :
  PageInv p -> paired (state (world p)) -> dispatch ev p = Some p' ->
  paired (state (world p')).
Proof.
  intros Hinv Hp Hd. pose proof (dispatch_state ev p p' Hinv Hd) as Hs.
  unfold paired in *.
  destruct ev as [[|f fs]| | |o|j|].
  - by subst p'.
  - by rewrite Hs.
  - by rewrite Hs.
  - destruct Hs as (-> & -> & _). done.
  - destruct Hs as (-> & -> & _). done.
  - destruct Hs as (-> & -> & _). done.
  - by rewrite Hs.
Qed.

Lemma reachable_paired evs p :
  run evs initialPage = Some p -> paired (state (world p)).
Proof.
  assert (H : forall q, PageInv q -> paired (state (world q)) ->
                        run evs q = Some p -> paired (state (world p))).
  { induction evs as [|ev evs IH]; intros q Hinv Hq Hr; simpl in Hr.
    - by apply (inj Some) in Hr as <-.
    - destruct (dispatch ev q) as [q'|] eqn:Hd; [|done].
      apply (IH q'); [by apply (dispatch_inv ev q)|by apply (dispatch_paired ev q)|done]. }
  apply H; [apply initialPage_inv|done].
Qed.

Lemma dispatch_send p f :
  PageInv p -> mounted p = true ->
  previewShown (state (world p)) = true ->
  isUploading (state (world p)) = false ->
  file (state (world p)) = Some f ->
  isVideoFile f || isImageFile f = true ->
  dispatch Send p
  = Some (mkPage (extend (world p) [SetIsUploading true; SetUploadStatus idle; requestFor f])
                 (effectRender p) (AwaitFetch (isVideoFile f)) true).
Proof.
  intros Hinv Hm Hs Hup Hf Hsup. unfold dispatch. rewrite Hm, Hs, Hup. cbn [negb andb].
  rewrite (sendToBackend_supported _ f _ Hf Hsup).
  apply f_equal, quiet_render; [done..|].
  unfold requestFor. by destruct (isVideoFile f).
Qed.

Lemma dispatch_fetch_settled p isVideo o :
  PageInv p -> mounted p = true -> task p = AwaitFetch isVideo ->
  dispatch (FetchSettled o) p
  = Some match o with
         | Resolved response =>
             mkPage (extend (world p) [ReadJson response]) (effectRender p)
                    (AwaitJson isVideo response) true
         | Rejected e =>
             mkPage (extend (world p)
                       [SetUploadStatus (errorStatus (catchMessage e));
                        ConsoleError "Upload error:"; SetIsUploading false])
                    (effectRender p) Finished true
         end.
Proof.
  intros Hinv Hm Ht. unfold dispatch. rewrite Hm, Ht. cbn [negb].
  destruct o as [response|e].
  - rewrite resumeFetch_resolved. by apply f_equal, quiet_render.
  - rewrite resumeFetch_rejected. by apply f_equal, quiet_render.
Qed.

Lemma dispatch_json_settled p isVideo response j :
  PageInv p -> mounted p = true -> task p = AwaitJson isVideo response ->
  dispatch (JsonSettled j) p
  = Some (mkPage
            (extend (world p)
               (parseLog j
                ++ (if ok response
                    then [SetUploadStatus
                            (successStatus ((if isVideo then "Video" else "Image")
                                              +:+ " uploaded successfully!"));
                          ConsoleLog "Response:"; SetIsUploading false]
                    else [SetUploadStatus
                            (errorStatus (serverErrorMessage response (bodyOf j)));
                          ConsoleError "Upload error:"; SetIsUploading false])))
            (effectRender p) Finished true).
Proof.
  intros Hinv Hm Ht. unfold dispatch. rewrite Hm, Ht. cbn [negb].
  destruct (ok response) eqn:Hok.
  - rewrite (resumeJson_success _ _ _ _ Hok).
    apply f_equal, quiet_render; [done..|]. by destruct j.
  - rewrite (resumeJson_failure _ _ _ _ Hok).
    apply f_equal, quiet_render; [done..|]. by destruct j.
Qed.

(** The state after the last three calls of an invocation. *)
Lemma state_settled w es s c :
  (forall st, apply_state c st = st) ->
  forallb keepsSelection es = true ->
  state (extend w (es ++ [SetUploadStatus s; c; SetIsUploading false]))
  = mkState (file (state w)) (previewUrl (state w)) false s.
Proof.
  intros Hc Hk. rewrite <- extend_app.
  destruct (extend_keeps w es Hk) as (Hf & Hp & _). rewrite <- Hf, <- Hp.
  generalize (extend w es). intros w'. unfold extend. simpl. by rewrite Hc.
Qed.


(** ** Selecting, clearing, unmounting *)

(** X1: a selection event that carries no file changes nothing on a mounted
    page the events can produce: no call is made and no cleanup runs. *)
Theorem empty_selection_ignored evs p :
  run evs initialPage = Some p -> mounted p = true ->
  dispatch (Select []) p = Some p
  /\ added (handleFileUpload (state (world p)) []) (world p) = [].
Proof.
  intros Hr Hm. split.
  - apply dispatch_select_nil; [by apply (reachable_inv evs)|done].
  - unfold added. rewrite (exec_eq _ _ _ _ (handleFileUpload_nil _ _)).
    by rewrite drop_all.
Qed.

Lemma empty_selection_ignored_witness :
  exists p,
    run [Select [mp4]; Send] initialPage = Some p
    /\ dispatch (Select []) p = Some p.
Proof.
  eexists. split; [reflexivity|].
  apply (empty_selection_ignored [Select [mp4]; Send]); reflexivity.
Defined.

(** X2: a selection takes the first file and ignores the others; it leaves
    that file selected, the idle status (so no alert), [isUploading] and the
    invocation in flight as they were, and a new object URL as the preview,
    the only live one. *)
Theorem selection_effect evs p f fs :
  run evs initialPage = Some p -> mounted p = true ->
  exists q,
    dispatch (Select (f :: fs)) p = Some q
    /\ dispatch (Select [f]) p = Some q
    /\ state (world q)
       = mkState (Some f) (Some (blobUrl (nextBlob (browser (world p)))))
                 (isUploading (state (world p))) idle
    /\ live (browser (world q)) = {[blobUrl (nextBlob (browser (world p)))]}
    /\ (blobUrl (nextBlob (browser (world p))) ∉ live (browser (world p)))
    /\ renderAlert (state (world q)) = None
    /\ task q = task p.
Proof.
  intros Hr Hm. pose proof (reachable_inv _ _ Hr) as Hinv.
  pose proof (dispatch_select p f fs Hm (inv_effect p Hinv Hm) (preview_not_next p Hinv))
    as Hd.
  pose proof (dispatch_select p f [] Hm (inv_effect p Hinv Hm) (preview_not_next p Hinv))
    as Hd1.
  cbv zeta in Hd, Hd1. eexists. split; [exact Hd|]. split; [exact Hd1|].
  pose proof (dispatch_state _ _ _ Hinv Hd) as Hst. cbv beta iota in Hst.
  pose proof (dispatch_inv _ _ _ Hinv Hd) as Hinv'.
  pose proof (inv_preview _ Hinv') as Hprev. rewrite Hst in Hprev.
  cbn [previewUrl mounted] in Hprev. destruct Hprev as (_ & _ & Hlive).
  split; [exact Hst|]. split; [by apply Hlive|].
  split; [|split; [by rewrite Hst|done]].
  intros Hin. apply (inv_fresh p Hinv) in Hin. lia.
Qed.

Lemma selection_effect_witness :
  exists q,
    dispatch (Select [png; mp4]) initialPage = Some q
    /\ dispatch (Select [png]) initialPage = Some q
    /\ file (state (world q)) = Some png.
Proof.
  destruct (selection_effect [] initialPage png [mp4]) as (q & H1 & H2 & H3 & _);
    [reflexivity | reflexivity |].
  exists q. split; [exact H1|]. split; [exact H2|]. by rewrite H3.
Defined.

(** X3: on a page that shows the clear button, a click on it revokes the
    previewed object URL and leaves no file, no preview, the idle status and
    no live object URL; the page then renders neither panel nor alert and
    offers neither the clear nor the send button. *)
Theorem clear_releases evs p :
  run evs initialPage = Some p -> mounted p = true ->
  previewShown (state (world p)) = true ->
  exists q u,
    previewUrl (state (world p)) = Some u
    /\ dispatch Clear p = Some q
    /\ RevokeObjectURL u ∈ drop (length (trace (world p))) (trace (world q))
    /\ state (world q) = mkState None None (isUploading (state (world p))) idle
    /\ live (browser (world q)) = ∅
    /\ view (state (world q)) = mkView None None
    /\ dispatch Clear q = None
    /\ dispatch Send q = None.
Proof.
  intros Hr Hm Hs. pose proof (reachable_inv _ _ Hr) as Hinv.
  pose proof (dispatch_clear p Hm Hs (inv_effect p Hinv Hm)) as Hd. cbv zeta in Hd.
  pose proof (dispatch_state _ _ _ Hinv Hd) as Hst. cbv beta iota in Hst.
  pose proof (dispatch_inv _ _ _ Hinv Hd) as Hinv'.
  pose proof (inv_preview _ Hinv') as Hlive. rewrite Hst in Hlive.
  cbn [previewUrl] in Hlive.
  pose proof (inv_preview p Hinv) as Hprev.
  unfold previewShown in Hs. destruct (file (state (world p))); [|done].
  destruct (previewUrl (state (world p))) as [u|] eqn:Hu; [|done].
  destruct Hprev as ((k & -> & _) & _).
  eexists. exists (blobUrl k). split; [done|]. split; [exact Hd|].
  split.
  { cbn [world trace extend]. rewrite drop_app_length.
    change (clearLog (Some (blobUrl k)))
      with [RevokeObjectURL (blobUrl k); SetFile None; SetPreviewUrl None;
            SetUploadStatus idle; RevokeObjectURL (blobUrl k)].
    set_solver. }
  split; [exact Hst|]. split; [exact Hlive|].
  split; [by rewrite Hst|].
  unfold dispatch, previewShown. rewrite Hst. done.
Qed.

Lemma clear_releases_witness :
  exists q,
    dispatch Clear
      (mkPage (extend emptyWorld (selectLog None png 0))
              (state (extend emptyWorld (handlerLog None png 0))) Finished true)
    = Some q
    /\ live (browser (world q)) = ∅.
Proof.
  destruct (clear_releases [Select [png]]
              (mkPage (extend emptyWorld (selectLog None png 0))
                      (state (extend emptyWorld (handlerLog None png 0))) Finished true))
    as (q & u & _ & Hd & _ & _ & Hl & _); [reflexivity | reflexivity | reflexivity |].
  exists q. split; [exact Hd | exact Hl].
Defined.



(** X5: on every page the events can produce, [file] and [previewUrl] are
    both set or both null, so the preview panel is rendered exactly when a
    file is selected; and while the page is mounted the URL the panel shows
    is the one live object URL, never a revoked one. *)
Theorem shown_preview_is_live evs p :
  run evs initialPage = Some p ->
  (file (state (world p)) = None <-> previewUrl (state (world p)) = None)
  /\ (renderPanel (state (world p)) = None <-> file (state (world p)) = None)
  /\ (mounted p = true ->
      forall pn, renderPanel (state (world p)) = Some pn ->
                 live (browser (world p)) = {[mediaSrc (media pn)]}).
Proof.
  intros Hr. pose proof (reachable_inv _ _ Hr) as Hinv.
  pose proof (reachable_paired _ _ Hr) as Hp. unfold paired in Hp.
  pose proof (inv_preview p Hinv) as Hprev.
  split; [exact Hp|]. unfold renderPanel.
  destruct (file (state (world p))) as [f|].
  - destruct (previewUrl (state (world p))) as [u|].
    + destruct Hprev as ((k & -> & _) & _ & Hlive).
      change (truthy_url (Some (blobUrl k))) with true. cbv iota.
      split; [done|]. intros Hm pn Hpn. apply (inj Some) in Hpn. subst pn.
      cbn [media]. rewrite (Hlive Hm).
      by destruct (String.prefix "video/" (type f)).
    + by destruct (proj2 Hp eq_refl).
  - split; [done|]. intros _ pn Hpn. done.
Qed.

Lemma shown_preview_is_live_witness :
  exists p,
    run [Select [png]; Select [mp4]] initialPage = Some p
    /\ forall pn, renderPanel (state (world p)) = Some pn ->
                  live (browser (world p)) = {[mediaSrc (media pn)]}.
Proof.
  eexists. split; [reflexivity|].
  apply (shown_preview_is_live [Select [png]; Select [mp4]]); reflexivity.
Defined.

(** ** The panel, the alert and [sendToBackend] *)

Lemma renderPanel_shown s f u :
  file s = Some f -> previewUrl s = Some u -> u <> "" ->
  renderPanel s
  = Some (mkPanel
            (if isVideoFile f then VideoElement u else ImgElement u "Preview")
            (name f) (megabytes (size f))
            (if isVideoFile f then "Video" else "Image")
            (isUploading s) (isUploading s)
            (if isUploading s then "Uploading..." else "Send to API")).
Proof.
  intros Hf Hu Hne. unfold renderPanel, isVideoFile. rewrite Hf, Hu.
  unfold truthy_url. apply String.eqb_neq in Hne. by rewrite Hne.
Qed.

(** X6: the panel decides between video and image the way [sendToBackend]
    does.  For a file of a supported type the word after "Type:" is the word
    of the success message of its upload; a file of any other type is
    rendered as an image under the word "Image", although sending it fails
    without a request. *)
Theorem type_line_and_upload s f u response j w :
  file s = Some f -> previewUrl s = Some u -> u <> "" ->
  exists pn,
    renderPanel s = Some pn
    /\ (media pn = VideoElement u <-> String.prefix "video/" (type f) = true)
    /\ (isVideoFile f || isImageFile f = true ->
        (200 <= status response <= 299)%Z ->
        statusAfter (submit s (Resolved response) j) w
        = successStatus (typeLine pn +:+ " uploaded successfully!"))
    /\ (isVideoFile f || isImageFile f = false ->
        media pn = ImgElement u "Preview"
        /\ typeLine pn = "Image"
        /\ status_type (statusAfter (sendToBackend s) w) = Some error
        /\ fetches (added (sendToBackend s) w) = []).
Proof.
  intros Hf Hu Hne. eexists. split; [by apply (renderPanel_shown s f u)|].
  cbn [media typeLine]. split; [|split].
  - unfold isVideoFile. by destruct (String.prefix "video/" (type f)).
  - intros Hs Hok. apply ok_range in Hok.
    pose proof (submit_success s f response j w Hf Hs Hok) as E.
    rewrite app_assoc in E.
    by apply (statusAfter_tail _ _ _ _ _ (ConsoleLog "Response:") (fun _ => eq_refl) E).
  - intros Hs. apply orb_false_iff in Hs as [Hv Hi]. rewrite Hv.
    pose proof (sendToBackend_unsupported s f w Hf Hv Hi) as E.
    rewrite (added_extend _ _ _ (exec_eq _ _ _ _ E)).
    unfold statusAfter. by rewrite (exec_eq _ _ _ _ E).
Qed.

Lemma type_line_and_upload_witness :
  exists pn,
    renderPanel (holding pdf (Some (blobUrl 0))) = Some pn
    /\ typeLine pn = "Image"
    /\ fetches (added (sendToBackend (holding pdf (Some (blobUrl 0)))) emptyWorld) = [].
Proof.
  destruct (type_line_and_upload (holding pdf (Some (blobUrl 0))) pdf (blobUrl 0)
              (mkResponse 200 "OK") (Parsed Js.Null) emptyWorld)
    as (pn & Hp & _ & _ & H); [reflexivity | reflexivity | discriminate |].
  destruct H as (_ & Ht & _ & Hn); [reflexivity|].
  exists pn. split; [exact Hp|]. split; [exact Ht | exact Hn].
Defined.

(** X7: on every page the events can produce, no invocation can start while
    one is in flight: the click on send is not served; the send button, when
    rendered, is disabled and reads "Uploading..." exactly then, and is
    enabled and reads "Send to API" otherwise. *)
Theorem one_invocation_in_flight evs p :
  run evs initialPage = Some p ->
  (task p <> Finished -> dispatch Send p = None)
  /\ forall pn,
      renderPanel (state (world p)) = Some pn ->
      (sendDisabled pn = true <-> task p <> Finished)
      /\ sendLabel pn = (if sendDisabled pn then "Uploading..." else "Send to API").
Proof.
  intros Hr. pose proof (inv_task p (reachable_inv _ _ Hr)) as Ht. split.
  - intros Hpending. apply Ht in Hpending. unfold dispatch.
    destruct (mounted p); [|done]. cbn [negb]. rewrite Hpending.
    by rewrite andb_false_r.
  - intros pn. unfold renderPanel.
    destruct (file (state (world p))); [|done].
    destruct (previewUrl (state (world p))); [|done].
    destruct (truthy_url _); [|done].
    intros Hpn. apply (inj Some) in Hpn. subst pn. by cbn [sendDisabled sendLabel].
Qed.

Lemma one_invocation_in_flight_witness :
  exists p,
    run [Select [mp4]; Send] initialPage = Some p
    /\ dispatch Send p = None.
Proof.
  eexists. split; [reflexivity|].
  apply (one_invocation_in_flight [Select [mp4]; Send]); [reflexivity|discriminate].
Defined.

(** X8: a click on an enabled send button with a file of a supported type
    selected clears the alert, raises [isUploading], makes exactly one
    request, the one for that file, and leaves the invocation waiting for its
    outcome; selection and object URLs stay as they were. *)
Theorem send_starts_upload evs p f :
  run evs initialPage = Some p -> mounted p = true ->
  isUploading (state (world p)) = false ->
  file (state (world p)) = Some f ->
  isVideoFile f || isImageFile f = true ->
  exists q,
    dispatch Send p = Some q
    /\ task q = AwaitFetch (isVideoFile f)
    /\ state (world q) = mkState (Some f) (previewUrl (state (world p))) true idle
    /\ renderAlert (state (world q)) = None
    /\ fetches (drop (length (trace (world p))) (trace (world q))) = [requestFor f]
    /\ browser (world q) = browser (world p).
Proof.
  intros Hr Hm Hup Hf Hs. pose proof (reachable_inv _ _ Hr) as Hinv.
  assert (Hshown : previewShown (state (world p)) = true).
  { pose proof (reachable_paired _ _ Hr) as Hp. unfold paired in Hp.
    pose proof (inv_preview p Hinv) as Hprev. unfold previewShown. rewrite Hf.
    destruct (previewUrl (state (world p))) as [u|].
    - by destruct Hprev as ((k & -> & _) & _).
    - pose proof (proj2 Hp eq_refl) as Hn. congruence. }
  eexists. split; [by apply (dispatch_send p f)|].
  cbn [task world trace extend]. split; [done|].
  assert (Hreq : isFetch (requestFor f) = true /\ apply_state (requestFor f) = id
                 /\ apply_browser (requestFor f) = id)
    by (unfold requestFor; by destruct (isVideoFile f)).
  destruct Hreq as (Hq1 & Hq2 & Hq3).
  split; [simpl; by rewrite Hq2, Hf|].
  split; [simpl; by rewrite Hq2|].
  split; [rewrite drop_app_length; simpl; by rewrite Hq1|].
  simpl. rewrite Hq3. by destruct (browser (world p)).
Qed.

Lemma send_starts_upload_witness :
  exists p,
    run [Select [png]] initialPage = Some p
    /\ exists q, dispatch Send p = Some q /\ task q = AwaitFetch false.
Proof.
  eexists. split; [reflexivity|].
  destruct (send_starts_upload [Select [png]] _ png eq_refl eq_refl eq_refl eq_refl eq_refl)
    as (q & Hd & Ht & _).
  exists q. split; [exact Hd | exact Ht].
Defined.

(** ** Settling an invocation in flight *)

Lemma settle_resolved p isVideo response j :
  PageInv p -> mounted p = true -> task p = AwaitFetch isVideo ->
  exists q,
    run [FetchSettled (Resolved response); JsonSettled j] p = Some q
    /\ state (world q)
       = mkState (file (state (world p))) (previewUrl (state (world p))) false
           (if ok response
            then successStatus ((if isVideo then "Video" else "Image")
                                  +:+ " uploaded successfully!")
            else errorStatus (serverErrorMessage response (bodyOf j)))
    /\ task q = Finished
    /\ mounted q = true
    /\ browser (world q) = browser (world p).
Proof.
  intros Hinv Hm Ht.
  pose proof (dispatch_fetch_settled p isVideo (Resolved response) Hinv Hm Ht) as Hd.
  cbv beta iota in Hd.
  pose proof (dispatch_inv _ _ _ Hinv Hd) as Hinv1.
  pose proof (dispatch_json_settled
                (mkPage (extend (world p) [ReadJson response]) (effectRender p)
                        (AwaitJson isVideo response) true)
                isVideo response j Hinv1 eq_refl eq_refl) as Hd2.
  eexists. split; [cbn [run]; rewrite Hd, Hd2; reflexivity|].
  cbn [world task mounted effectRender]. rewrite extend_app.
  assert (Hk : forallb keepsSelection ([ReadJson response] ++ parseLog j) = true)
    by (by destruct j).
  split; [|split; [done|split; [done|]]].
  - destruct (ok response); cbv iota; rewrite app_assoc.
    + apply (state_settled _ _ _ (ConsoleLog "Response:")); [by intros st|exact Hk].
    + apply (state_settled _ _ _ (ConsoleError "Upload error:")); [by intros st|exact Hk].
  - apply extend_keeps. by destruct (ok response), j.
Qed.




(** X10: the outcome of an upload is reported for the file that was sent,
    not for the one selected when the response arrives: if another file is
    selected while the request is in flight and the response then has a
    status in 200..299, the page ends with the new file selected and the
    success message worded for the file sent. *)
Theorem late_response_names_sent_file evs p isVideo f fs response j :
  run evs initialPage = Some p -> mounted p = true ->
  task p = AwaitFetch isVideo ->
  (200 <= status response <= 299)%Z ->
  exists q,
    run [Select (f :: fs); FetchSettled (Resolved response); JsonSettled j] p = Some q
    /\ file (state (world q)) = Some f
    /\ uploadStatus (state (world q))
       = successStatus ((if isVideo then "Video" else "Image")
                          +:+ " uploaded successfully!")
    /\ isUploading (state (world q)) = false
    /\ task q = Finished.
Proof.
  intros Hr Hm Ht Hok. apply ok_range in Hok.
  pose proof (reachable_inv _ _ Hr) as Hinv.
  pose proof (dispatch_select p f fs Hm (inv_effect p Hinv Hm) (preview_not_next p Hinv))
    as Hd. cbv zeta in Hd.
  pose proof (dispatch_inv _ _ _ Hinv Hd) as Hinv1.
  pose proof (dispatch_state _ _ _ Hinv Hd) as Hst1. cbv beta iota in Hst1.
  destruct (settle_resolved _ isVideo response j Hinv1 eq_refl Ht)
    as (q & Hrun & Hst & Hfin & _).
  exists q. split.
  { change (run [Select (f :: fs); FetchSettled (Resolved response); JsonSettled j] p)
      with (match dispatch (Select (f :: fs)) p with
            | Some p' => run [FetchSettled (Resolved response); JsonSettled j] p'
            | None => None
            end).
    rewrite Hd. exact Hrun. }
  rewrite Hst, Hst1, Hok. done.
Qed.

Lemma late_response_names_sent_file_witness :
  exists p,
    run [Select [mp4]; Send] initialPage = Some p
    /\ exists q,
        run [Select [png]; FetchSettled (Resolved (mkResponse 200 "OK"));
             JsonSettled (Parsed Js.Null)] p = Some q
        /\ file (state (world q)) = Some png
        /\ uploadStatus (state (world q)) = successStatus "Video uploaded successfully!".
Proof.
  eexists. split; [reflexivity|].
  destruct (late_response_names_sent_file [Select [mp4]; Send] _ true png []
              (mkResponse 200 "OK") (Parsed Js.Null) eq_refl eq_refl eq_refl)
    as (q & Hrun & Hf & Hs & _); [simpl; lia|].
  exists q. split; [exact Hrun|]. split; [exact Hf | exact Hs].
Defined.

(** ** The feedback of an invocation *)

(** The status an invocation ends with, path by path. *)
Lemma submit_status r o j w :
  statusAfter (submit r o j) w
  = match file r with
    | None => errorStatus "Please select a file first"
    | Some f =>
        if isVideoFile f || isImageFile f
        then match o with
             | Resolved response =>
                 if ok response
                 then successStatus ((if isVideoFile f then "Video" else "Image")
                                       +:+ " uploaded successfully!")
                 else errorStatus (serverErrorMessage response (bodyOf j))
             | Rejected e => errorStatus (catchMessage e)
             end
        else errorStatus "Please upload a valid video or image file"
    end.
Proof.
  destruct (file r) as [f|] eqn:Hf.
  - destruct (isVideoFile f || isImageFile f) eqn:Hs.
    + destruct o as [response|e].
      * destruct (ok response) eqn:Hok.
        -- pose proof (submit_success r f response j w Hf Hs Hok) as E.
           rewrite app_assoc in E.
           by apply (statusAfter_tail _ _ _ _ _ (ConsoleLog "Response:")
                       (fun _ => eq_refl) E).
        -- pose proof (submit_failure r f response j w Hf Hs Hok) as E.
           rewrite app_assoc in E.
           by apply (statusAfter_tail _ _ _ _ _ (ConsoleError "Upload error:")
                       (fun _ => eq_refl) E).
      * by apply (statusAfter_tail _ _ _ [_; _; _] _ (ConsoleError "Upload error:")
                    (fun _ => eq_refl) (submit_rejected r f e j w Hf Hs)).
    + apply orb_false_iff in Hs as [Hv Hi].
      by apply (statusAfter_tail _ _ _ [_; _] _ (ConsoleError "Upload error:")
                  (fun _ => eq_refl) (submit_unsupported r f o j w Hf Hv Hi)).
  - unfold statusAfter. by rewrite (exec_eq _ _ _ _ (submit_no_file r o j w Hf)).
Qed.

(** X11: every invocation ends with an alert on the page.  The alert is the
    success one exactly when a file of a supported type was selected and the
    request was answered with a status in 200..299; in every other case it is
    the destructive one titled "Error".  Its text is the message of the
    status. *)
Theorem feedback_after_submit r o j w :
  let st := statusAfter (submit r o j) w in
  (status_type st = Some success
   <-> exists f response,
        file r = Some f
        /\ isVideoFile f || isImageFile f = true
        /\ o = Resolved response
        /\ (200 <= status response <= 299)%Z)
  /\ (status_type st = Some success \/ status_type st = Some error)
  /\ exists a,
      renderAlert (state (exec (submit r o j) w)) = Some a
      /\ description a = message st
      /\ (title a = "Success" <-> status_type st = Some success)
      /\ (title a = "Error" /\ variant a = "destructive"
          <-> status_type st = Some error).
Proof.
  intros st. subst st. unfold renderAlert.
  change (uploadStatus (state (exec (submit r o j) w)))
    with (statusAfter (submit r o j) w).
  rewrite submit_status. split; [|split].
  - split.
    + destruct (file r) as [f|]; [|done].
      destruct (isVideoFile f || isImageFile f) eqn:Hs; [|done].
      destruct o as [response|e]; [|done].
      destruct (ok response) eqn:Hok; [|done].
      intros _. exists f, response. by rewrite <- ok_range.
    + intros (f & response & -> & -> & -> & Hok).
      apply ok_range in Hok. by rewrite Hok.
  - destruct (file r) as [f|]; [|by right].
    destruct (isVideoFile f || isImageFile f); [|by right].
    destruct o as [response|e]; [|by right].
    destruct (ok response); [by left|by right].
  - destruct (file r) as [f|].
    + destruct (isVideoFile f || isImageFile f).
      * destruct o as [response|e].
        -- destruct (ok response); eexists; (split; [reflexivity|]);
             cbn; repeat split; try done; by intros [? ?].
        -- eexists; (split; [reflexivity|]); cbn; repeat split; done.
      * eexists; (split; [reflexivity|]); cbn; repeat split; done.
    + eexists; (split; [reflexivity|]); cbn; repeat split; done.
Qed.

(** ** The size line *)

Ltac ndiv := zify; Z.to_euclidean_division_equations; lia.

Lemma three_after s x y z :
  s +:+ String x (String y (String z "")) = "0.00" ->
  s = "0" /\ String x (String y (String z "")) = ".00".
Proof.
  destruct s as [|a [|b [|c [|d s]]]]; cbn; intros H; inversion H; subst; try done.
  by destruct s.
Qed.

Lemma digit_cases (d : N) :
  (d < 10)%N ->
  d = 0%N \/ d = 1%N \/ d = 2%N \/ d = 3%N \/ d = 4%N
  \/ d = 5%N \/ d = 6%N \/ d = 7%N \/ d = 8%N \/ d = 9%N.
Proof. lia. Qed.

Lemma toFixed2_zero n : toFixed2 n = "0.00" <-> n = 0%N.
Proof.
  split; [|by intros ->].
  unfold toFixed2. intros H.
  assert (Hb : (n mod 100 / 10 < 10)%N) by ndiv.
  assert (Hc : (n mod 10 < 10)%N) by ndiv.
  apply digit_cases in Hb, Hc.
  assert ((n / 100 = 0 /\ n mod 100 / 10 = 0 /\ n mod 10 = 0)%N) as (Ha & Hb' & Hc');
    [|ndiv].
  destruct Hb as [Hb|[Hb|[Hb|[Hb|[Hb|[Hb|[Hb|[Hb|[Hb|Hb]]]]]]]]];
    destruct Hc as [Hc|[Hc|[Hc|[Hc|[Hc|[Hc|[Hc|[Hc|[Hc|Hc]]]]]]]]];
    rewrite Hb, Hc in H; apply three_after in H as (Hs & Ht);
    try discriminate Ht.
  split; [|done]. by apply (inj pretty).
Qed.

(** X12: the size line reads "0.00" (MB) exactly for the files of fewer than
    5243 bytes: sizes are rounded to the nearest hundredth of 2^20 bytes,
    and 5243 bytes are the first to reach half a hundredth. *)
Theorem small_files_read_zero (bytes : N) :
  (bytes < 2 ^ 53)%N ->
  megabytes bytes = "0.00" <-> (bytes < 5243)%N.
Proof.
  intros _. unfold megabytes. rewrite toFixed2_zero. unfold hundredths.
  change (2 ^ 20)%N with 1048576%N. change (2 ^ 21)%N with 2097152%N.
  split; intros H; ndiv.
Qed.

Lemma small_files_read_zero_witness :
  megabytes 5242 = "0.00" /\ megabytes 5243 <> "0.00".
Proof.
  split.
  - apply (small_files_read_zero 5242); [reflexivity|reflexivity].
  - intros H. apply (small_files_read_zero 5243) in H; [|reflexivity].
    apply N.ltb_lt in H. discriminate H.
Defined.

(** ** Details that are not strings *)






(** ** Every request of the page *)

Lemma no_fetch_known es :
  forallb (fun e => negb (isFetch e)) es = true -> Forall knownRequest es.
Proof.
  induction es as [|e es IH]; intros H; [constructor|].
  simpl in H. apply andb_prop in H as [He Hes].
  constructor; [by destruct e|by apply IH].
Qed.

Lemma requestFor_known f :
  isVideoFile f || isImageFile f = true -> knownRequest (requestFor f).
Proof.
  intros Hs. destruct (isVideoFile f) eqn:Hv.
  - rewrite (requestFor_video f Hv). exists f. by left.
  - simpl in Hs. rewrite (requestFor_image f Hs). exists f. by right.
Qed.

(** The calls an event adds to the log hold only requests of that kind. *)
Lemma dispatch_log ev p p' :
  PageInv p -> dispatch ev p = Some p' ->
  exists es, trace (world p') = trace (world p) ++ es /\ Forall knownRequest es.
Proof.
  intros Hinv Hd. pose proof (dispatch_mounted _ _ _ Hd) as Hm.
  destruct ev as [[|f fs]| | |o|j|].
  - rewrite (dispatch_select_nil p Hinv Hm) in Hd. apply (inj Some) in Hd. subst p'.
    exists []. by rewrite app_nil_r.
  - rewrite (dispatch_select p f fs Hm (inv_effect p Hinv Hm) (preview_not_next p Hinv))
      in Hd.
    apply (inj Some) in Hd. subst p'. eexists. split; [reflexivity|].
    apply no_fetch_known. unfold selectLog, handlerLog, revokeLog.
    destruct (previewUrl (state (world p))) as [u|]; [|done].
    by destruct (truthy_url (Some u)).
  - destruct (previewShown (state (world p))) eqn:Hs;
      [|by unfold dispatch in Hd; rewrite Hm, Hs in Hd].
    rewrite (dispatch_clear p Hm Hs (inv_effect p Hinv Hm)) in Hd.
    apply (inj Some) in Hd. subst p'. eexists. split; [reflexivity|].
    apply no_fetch_known. unfold clearLog, revokeLog.
    destruct (previewUrl (state (world p))) as [u|]; [|done].
    by destruct (truthy_url (Some u)).
  - unfold dispatch in Hd. rewrite Hm in Hd. cbn [negb] in Hd.
    destruct (previewShown (state (world p)) && negb (isUploading (state (world p))));
      [|done].
    destruct (file (state (world p))) as [f|] eqn:Hf.
    + destruct (isVideoFile f || isImageFile f) eqn:Hsup.
      * rewrite (sendToBackend_supported _ f _ Hf Hsup) in Hd.
        rewrite quiet_render in Hd;
          [|done|done|unfold requestFor; by destruct (isVideoFile f)].
        apply (inj Some) in Hd. subst p'. eexists. split; [reflexivity|].
        repeat constructor. by apply requestFor_known.
      * apply orb_false_iff in Hsup as [Hv Hi].
        rewrite (sendToBackend_unsupported _ f _ Hf Hv Hi) in Hd.
        rewrite quiet_render in Hd by done.
        apply (inj Some) in Hd. subst p'. eexists. split; [reflexivity|].
        by apply no_fetch_known.
    + rewrite (sendToBackend_no_file _ _ Hf) in Hd.
      rewrite quiet_render in Hd by done.
      apply (inj Some) in Hd. subst p'. eexists. split; [reflexivity|].
      by apply no_fetch_known.
  - destruct (task p) as [|isVideo|] eqn:Ht;
      try (by unfold dispatch in Hd; rewrite Hm, Ht in Hd).
    rewrite (dispatch_fetch_settled p isVideo o Hinv Hm Ht) in Hd.
    apply (inj Some) in Hd. subst p'.
    destruct o; (eexists; split; [reflexivity|]); by apply no_fetch_known.
  - destruct (task p) as [| |isVideo response] eqn:Ht;
      try (by unfold dispatch in Hd; rewrite Hm, Ht in Hd).
    rewrite (dispatch_json_settled p isVideo response j Hinv Hm Ht) in Hd.
    apply (inj Some) in Hd. subst p'. eexists. split; [reflexivity|].
    apply no_fetch_known. by destruct (ok response), j.
  - rewrite (dispatch_unmount p Hm) in Hd. apply (inj Some) in Hd. subst p'.
    eexists. split; [reflexivity|]. apply no_fetch_known. unfold revokeLog.
    destruct (previewUrl (effectRender p)) as [u|]; [|done].
    by destruct (truthy_url (Some u)).
Qed.

Lemma reachable_requests evs p :
  run evs initialPage = Some p -> Forall knownRequest (trace (world p)).
Proof.
  assert (H : forall q, PageInv q -> Forall knownRequest (trace (world q)) ->
                        run evs q = Some p -> Forall knownRequest (trace (world p))).
  { induction evs as [|ev evs IH]; intros q Hinv Hq Hr; simpl in Hr.
    - by apply (inj Some) in Hr as <-.
    - destruct (dispatch ev q) as [q'|] eqn:Hd; [|done].
      apply (IH q'); [by apply (dispatch_inv ev q)| |done].
      destruct (dispatch_log ev q q' Hinv Hd) as (es & -> & Hes).
      by apply Forall_app. }
  apply H; [apply initialPage_inv|constructor].
Qed.

(** X14: whatever the events, the page makes no other request than a POST
    to /api/arms/from_video with the parts video, fps = "1" and
    seconds = "-1" for a file whose type starts with "video/", or a POST to
    /api/arms/from_image with the part image for a file whose type starts
    with "image/". *)
Theorem only_known_requests evs p endpoint method body :
  run evs initialPage = Some p ->
  Fetch endpoint method body ∈ trace (world p) ->
  method = "POST"
  /\ exists f,
      (String.prefix "video/" (type f) = true
       /\ endpoint = "/api/arms/from_video"
       /\ body = [("video", FileValue f); ("fps", TextValue "1");
                  ("seconds", TextValue "-1")])
      \/ (String.prefix "image/" (type f) = true
          /\ endpoint = "/api/arms/from_image"
          /\ body = [("image", FileValue f)]).
Proof.
  intros Hr Hin. pose proof (reachable_requests _ _ Hr) as Hall.
  rewrite Forall_forall in Hall. specialize (Hall _ Hin).
  destruct Hall as (f & [[Hv E]|[Hi E]]); injection E as -> -> ->.
  - split; [done|]. exists f. by left.
  - split; [done|]. exists f. by right.
Qed.

Lemma only_known_requests_witness :
  exists p,
    run [Select [png]; Send] initialPage = Some p
    /\ Fetch "/api/arms/from_image" "POST" [("image", FileValue png)] ∈ trace (world p)
    /\ exists f,
        (String.prefix "video/" (type f) = true
         /\ "/api/arms/from_image" = "/api/arms/from_video"
         /\ [("image", FileValue png)]
            = [("video", FileValue f); ("fps", TextValue "1");
               ("seconds", TextValue "-1")])
        \/ (String.prefix "image/" (type f) = true
            /\ "/api/arms/from_image" = "/api/arms/from_image"
            /\ [("image", FileValue png)] = [("image", FileValue f)]).
Proof.
  eexists. split; [reflexivity|].
  assert (Hin : Fetch "/api/arms/from_image" "POST" [("image", FileValue png)]
                  ∈ trace (world (mkPage
                       (extend (extend emptyWorld (selectLog None png 0))
                          [SetIsUploading true; SetUploadStatus idle; imageRequest png])
                       (state (extend emptyWorld (handlerLog None png 0)))
                       (AwaitFetch false) true))).
  { cbn. repeat constructor. }
  split; [exact Hin|].
  exact (proj2 (only_known_requests [Select [png]; Send] _ _ _ _ eq_refl Hin)).
Defined.
